(** * Gesture pipeline of 3DMerryCharistmas

    A shallow embedding of the hand-gesture pipeline of
    [components/GestureDetector.tsx], of the zustand store of [store.ts]
    and of the mode buttons of [App.tsx].

    JavaScript numbers are IEEE-754 doubles.  The code is written once,
    over an interface [JSNumber] of the arithmetic it uses, and read at two
    instances: [Double] (primitive binary64 floats, which evaluate) and
    [Exact] (real numbers, the arithmetic the design reasons in). *)

From Stdlib Require Import List Bool Arith ZArith QArith Lia.
From Stdlib Require String Ascii.
From Stdlib Require Import Reals Lra Floats Sorting.Sorted.
From Equations Require Import Equations.
Import ListNotations.

Set Implicit Arguments.

(** ** Numbers *)

Class JSNumber (num : Type) := {
  lit   : Q -> num;                 (* a decimal literal of the source *)
  add   : num -> num -> num;        (* a + b *)
  sub   : num -> num -> num;        (* a - b *)
  mul   : num -> num -> num;        (* a * b *)
  hypot : num -> num -> num;        (* Math.hypot(a, b) *)
  ltb   : num -> num -> bool;       (* a < b *)
  neqb  : num -> num -> bool        (* a !== b *)
}.

(** [a > b] is [b < a], also on NaN. *)
Definition gtb {num} `{JSNumber num} (a b : num) : bool := ltb b a.

Module Double.

Definition of_Z (z : Z) : float :=
  match z with
  | Z0 => PrimFloat.zero
  | Zpos p => PrimFloat.of_uint63 (Uint63.of_Z (Zpos p))
  | Zneg p => PrimFloat.opp (PrimFloat.of_uint63 (Uint63.of_Z (Zpos p)))
  end.

(** The double nearest to the decimal [n/d]: the division of two small
    integers is correctly rounded. *)
Definition of_Q (q : Q) : float :=
  PrimFloat.div (of_Z (Qnum q)) (of_Z (Zpos (Qden q))).

(** [Math.hypot] is implementation-approximated; the direct formula is
    taken for it. *)
Definition hypot64 (a b : float) : float :=
  PrimFloat.sqrt (PrimFloat.add (PrimFloat.mul a a) (PrimFloat.mul b b)).

#[global] Instance number : JSNumber float := {|
  lit := of_Q;
  add := PrimFloat.add;
  sub := PrimFloat.sub;
  mul := PrimFloat.mul;
  hypot := hypot64;
  ltb := PrimFloat.ltb;
  neqb := fun a b => negb (PrimFloat.eqb a b)
|}.

End Double.

Module Exact.

Definition hypotR (a b : R) : R := R_sqrt.sqrt (a * a + b * b)%R.

Definition ltbR (a b : R) : bool := if Rlt_dec a b then true else false.

Definition neqbR (a b : R) : bool := if Req_dec_T a b then false else true.

#[global] Instance number : JSNumber R := {|
  lit := Q2R;
  add := Rplus;
  sub := Rminus;
  mul := Rmult;
  hypot := hypotR;
  ltb := ltbR;
  neqb := neqbR
|}.

End Exact.

(** ** types.ts *)

(** Modelled from the spec: the [GestureType] enum of [types.ts], whose
    declaration is missing.  Its members are the six gestures of the spec;
    the code keeps them in a [string[]] and uses them as object keys, so
    they are string values, none of which is an array index. *)
Inductive GestureType : Set :=
  NONE | OPEN_HAND | CLOSED_FIST | PINCH | VICTORY | HEART.

(** Modelled from the spec: the [AppMode] enum of [types.ts], whose
    declaration is missing; its members are the four modes of the spec. *)
Inductive AppMode : Set := TREE | TEXT | SCATTER | LOVE.

Scheme Equality for GestureType.
Scheme Equality for AppMode.

(** A [NormalizedLandmark] of the hand tracker. *)
Module Landmark.
Record t (num : Type) : Type := make { x : num; y : num; z : num }.
End Landmark.

(** Modelled from the spec: [HandData] of [types.ts], the published hand
    state [{ gesture, x, y }] (its initial value is in [store.ts]). *)
Module HandData.
Record t (num : Type) : Type :=
  make { gesture : GestureType; x : num; y : num }.

(** [Partial<HandData>] *)
Record partial (num : Type) : Type :=
  some { gesture_opt : option GestureType;
         x_opt : option num;
         y_opt : option num }.

(** [{ ...old, ...data }] *)
Definition spread {num} (old : t num) (data : partial num) : t num :=
  {| gesture := match gesture_opt data with Some g => g | None => gesture old end;
     x := match x_opt data with Some v => v | None => x old end;
     y := match y_opt data with Some v => v | None => y old end |}.
End HandData.

(** Modelled from the spec: [PhotoData] of [types.ts], as [store.ts]
    builds it. *)
Module PhotoData.
Record t (num : Type) : Type :=
  make { id : String.string;
         url : String.string;
         position : num * num * num;
         scatterPosition : num * num * num;
         description : option String.string }.
End PhotoData.

(** ** store.ts *)

Record AppState (num : Type) : Type := {
  mode : AppMode;
  photos : list (PhotoData.t num);
  focusedPhotoId : option String.string;
  handData : HandData.t num
}.

Section Store.
Context {num : Type} `{JSNumber num}.

Definition initialState : AppState num :=
  {| mode := TREE;
     photos := [];
     focusedPhotoId := None;
     handData := HandData.make NONE (lit (5#10)) (lit (5#10)) |}.

Definition setMode (m : AppMode) (s : AppState num) : AppState num :=
  {| mode := m;
     photos := photos s;
     focusedPhotoId := focusedPhotoId s;
     handData := handData s |}.

(** [newPhotos] stands for [urls.map(...)], whose entries are drawn with
    [Math.random]. *)
Definition addPhotos (newPhotos : list (PhotoData.t num))
    (s : AppState num) : AppState num :=
  {| mode := mode s;
     photos := photos s ++ newPhotos;
     focusedPhotoId := focusedPhotoId s;
     handData := handData s |}.

Definition updatePhotoDescription (id desc : String.string)
    (s : AppState num) : AppState num :=
  {| mode := mode s;
     photos :=
       map (fun p =>
              if String.eqb (PhotoData.id p) id
              then PhotoData.make (PhotoData.id p) (PhotoData.url p)
                     (PhotoData.position p) (PhotoData.scatterPosition p)
                     (Some desc)
              else p)
           (photos s);
     focusedPhotoId := focusedPhotoId s;
     handData := handData s |}.

Definition setFocusedPhotoId (id : option String.string)
    (s : AppState num) : AppState num :=
  {| mode := mode s;
     photos := photos s;
     focusedPhotoId := id;
     handData := handData s |}.

Definition updateHandData (data : HandData.partial num)
    (s : AppState num) : AppState num :=
  {| mode := mode s;
     photos := photos s;
     focusedPhotoId := focusedPhotoId s;
     handData := HandData.spread (handData s) data |}.

(** A call of one of the store's actions. *)
Inductive Action : Type :=
| SetMode (m : AppMode)
| AddPhotos (newPhotos : list (PhotoData.t num))
| UpdatePhotoDescription (id desc : String.string)
| SetFocusedPhotoId (id : option String.string)
| UpdateHandData (data : HandData.partial num).

Definition dispatch (s : AppState num) (a : Action) : AppState num :=
  match a with
  | SetMode m => setMode m s
  | AddPhotos l => addPhotos l s
  | UpdatePhotoDescription id desc => updatePhotoDescription id desc s
  | SetFocusedPhotoId id => setFocusedPhotoId id s
  | UpdateHandData data => updateHandData data s
  end.

Definition isSetMode (a : Action) : bool :=
  match a with SetMode _ => true | _ => false end.

End Store.

Arguments Action num : clear implicits.

(** ** GestureDetector.tsx *)

(** Simple Linear Interpolation *)
Definition lerp {num} `{JSNumber num} (start end_ t : num) : num :=
  add (mul start (sub (lit 1) t)) (mul end_ t).

(** *** JavaScript values the component relies on *)

(** [l[i]]: [undefined] past the end. *)
Definition elem {A} (l : list A) (i : nat) : option A := nth_error l i.

(** [a > b] and [a < b] where [a] can be [undefined]: [undefined] turns
    into NaN and the comparison is false. *)
Definition gtb_u {num} `{JSNumber num} (a : option num) (b : num) : bool :=
  match a with Some a => gtb a b | None => false end.

Definition ltb_u {num} `{JSNumber num} (a : option num) (b : num) : bool :=
  match a with Some a => ltb a b | None => false end.

(** An object with string keys that are not array indices, as an
    association list in insertion order; [Object.keys] lists the keys in
    that order. *)
Definition Obj (K V : Type) : Type := list (K * V).

Section Objects.
Context {K V : Type} (eqb : K -> K -> bool).

(** [o[k]] *)
Fixpoint obj_get (o : Obj K V) (k : K) : option V :=
  match o with
  | [] => None
  | (k', v) :: rest => if eqb k k' then Some v else obj_get rest k
  end.

(** [o[k] = v]: an existing key keeps its place, a new key goes last. *)
Fixpoint obj_set (o : Obj K V) (k : K) (v : V) : Obj K V :=
  match o with
  | [] => [(k, v)]
  | (k', v') :: rest =>
      if eqb k k' then (k', v) :: rest else (k', v') :: obj_set rest k v
  end.

Definition obj_keys (o : Obj K V) : list K := map fst o.
End Objects.

(** [l.reduce(f)] with no initial value: a TypeError ([None]) on the empty
    array. *)
Definition reduce1 {A} (f : A -> A -> A) (l : list A) : option A :=
  match l with
  | [] => None
  | a :: rest => Some (fold_left f rest a)
  end.

(** [v || 0] on a count. *)
Definition or0 (v : option nat) : nat :=
  match v with Some (S n) => S n | _ => 0%nat end.

(** [a > b] on two counts that can be [undefined]. *)
Definition count_gtb (a b : option nat) : bool :=
  match a, b with
  | Some a, Some b => Nat.ltb b a
  | _, _ => false
  end.

(** *** The refs of the component *)

Record Refs (num : Type) : Type := {
  smoothedX : num;
  smoothedY : num;
  gestureHistory : list GestureType;
  lastGestureTime : Z;
  lastVideoTime : num
}.

(** What one call of [predictWebcam] receives from its environment. *)
Record Tick (num : Type) : Type := {
  attached : bool;          (* landmarker && videoRef.current && canvasRef.current *)
  videoWidth : Z;
  videoHeight : Z;
  currentTime : num;        (* video.currentTime *)
  ctx : bool;               (* canvas.getContext('2d') is not null *)
  landmarks : list (list (Landmark.t num));   (* results.landmarks *)
  now : Z                   (* Date.now() *)
}.

(** How a call of [predictWebcam] ends: it returns without asking for
    another frame, it asks for the next frame, or it throws. *)
Inductive Outcome : Set := Stopped | Scheduled | Threw.

Section GestureDetector.
Context {num : Type} `{JSNumber num}.

Definition initialRefs : Refs num :=
  {| smoothedX := lit (5#10);
     smoothedY := lit (5#10);
     gestureHistory := [];
     lastGestureTime := 0;
     lastVideoTime := lit (-1#1) |}.

Definition OPEN_RATIO : num := lit (16#10).
Definition FIST_RATIO : num := lit (13#10).
Definition PINCH_RATIO : num := lit (5#10).

(** [Math.hypot(p.x - q.x, p.y - q.y)], which the component writes out at
    each use; [z] is not read. *)
Definition distance2d (p q : Landmark.t num) : num :=
  hypot (sub (Landmark.x p) (Landmark.x q))
        (sub (Landmark.y p) (Landmark.y q)).

(** Lines 135-163: the constants of the classification, each as a
    function of the values it is computed from. *)
Definition isOpen (handSize : num) (fingerDistances : list num) : bool :=
  forallb (fun d => gtb d (mul handSize OPEN_RATIO)) fingerDistances.

Definition isFist (handSize : num) (fingerDistances : list num) : bool :=
  forallb (fun d => ltb d (mul handSize FIST_RATIO)) fingerDistances.

Definition isPinch (handSize pinchDist : num) : bool :=
  ltb pinchDist (mul handSize PINCH_RATIO).

Definition indexUp (handSize : num) (fingerDistances : list num) : bool :=
  gtb_u (elem fingerDistances 0) (mul handSize (lit (14#10))).

Definition middleUp (handSize : num) (fingerDistances : list num) : bool :=
  gtb_u (elem fingerDistances 1) (mul handSize (lit (14#10))).

Definition ringDown (handSize : num) (fingerDistances : list num) : bool :=
  ltb_u (elem fingerDistances 2) (mul handSize (lit (12#10))).

Definition pinkyDown (handSize : num) (fingerDistances : list num) : bool :=
  ltb_u (elem fingerDistances 3) (mul handSize (lit (12#10))).

Definition isVictory (handSize : num) (fingerDistances : list num) : bool :=
  indexUp handSize fingerDistances && middleUp handSize fingerDistances
  && ringDown handSize fingerDistances && pinkyDown handSize fingerDistances.

Definition thumbUp (handSize : num) (thumbTip wrist : Landmark.t num) : bool :=
  gtb (distance2d thumbTip wrist) (mul handSize (lit (8#10))).

Definition pinkyUp (handSize : num) (fingerDistances : list num) : bool :=
  gtb_u (elem fingerDistances 3) (mul handSize (lit (14#10))).

Definition middleDown (handSize : num) (fingerDistances : list num) : bool :=
  ltb_u (elem fingerDistances 1) (mul handSize (lit (12#10))).

Definition isLove (handSize : num) (thumbTip wrist : Landmark.t num)
    (fingerDistances : list num) : bool :=
  thumbUp handSize thumbTip wrist && indexUp handSize fingerDistances
  && middleDown handSize fingerDistances && ringDown handSize fingerDistances
  && pinkyUp handSize fingerDistances.

(** Lines 114-177: the gesture of one hand.  Reading a coordinate of a
    landmark the array does not have throws ([None]). *)
Definition detectedGesture (landmarks : list (Landmark.t num))
    : option GestureType :=
  match elem landmarks 8, elem landmarks 4, elem landmarks 0,
        elem landmarks 12, elem landmarks 16, elem landmarks 20,
        elem landmarks 9 with
  | Some indexTip, Some thumbTip, Some wrist,
    Some middleTip, Some ringTip, Some pinkyTip, Some middleFingerMCP =>
      let handSize := distance2d middleFingerMCP wrist in
      let pinchDist := distance2d thumbTip indexTip in
      let fingers := [indexTip; middleTip; ringTip; pinkyTip] in
      let fingerDistances := map (fun tip => distance2d tip wrist) fingers in
      Some (if isLove handSize thumbTip wrist fingerDistances then HEART
            else if isVictory handSize fingerDistances then VICTORY
            else if isFist handSize fingerDistances then CLOSED_FIST
            else if isPinch handSize pinchDist then PINCH
            else if isOpen handSize fingerDistances then OPEN_HAND
            else NONE)
  | _, _, _, _, _, _, _ => None
  end.

(** Lines 179-180: [push], then [shift] when more than 8 are held. *)
Definition pushGesture (history : list GestureType) (g : GestureType)
    : list GestureType :=
  let history := history ++ [g] in
  if Nat.ltb 8 (length history) then tl history else history.

(** Lines 182-185 *)
Definition countGestures (history : list GestureType) : Obj GestureType nat :=
  fold_left
    (fun acc curr =>
       obj_set GestureType_beq acc curr
               (or0 (obj_get GestureType_beq acc curr) + 1)%nat)
    history [].

(** Line 187 *)
Definition stableGesture (history : list GestureType) : option GestureType :=
  let counts := countGestures history in
  reduce1
    (fun a b =>
       if count_gtb (obj_get GestureType_beq counts a)
                    (obj_get GestureType_beq counts b)
       then a else b)
    (obj_keys counts).

(** Lines 193-208: the mode handed to [setMode], if any. *)
Definition modeTransition (stable : GestureType) (currentMode : AppMode)
    (now lastGestureTime : Z) : option AppMode :=
  if Z.ltb 600 (now - lastGestureTime) then
    if GestureType_beq stable HEART && negb (AppMode_beq currentMode LOVE)
    then Some LOVE
    else if GestureType_beq stable VICTORY && negb (AppMode_beq currentMode TEXT)
    then Some TEXT
    else if GestureType_beq stable CLOSED_FIST && negb (AppMode_beq currentMode TREE)
    then Some TREE
    else if GestureType_beq stable OPEN_HAND && negb (AppMode_beq currentMode SCATTER)
    then Some SCATTER
    else None
  else None.

(** Lines 210-217: the new [smoothedX], [smoothedY]. *)
Definition smoothCursor (smoothedX smoothedY : num) (wrist : Landmark.t num)
    : num * num :=
  let rawX := sub (lit 1) (Landmark.x wrist) in
  let rawY := Landmark.y wrist in
  let distMoved := hypot (sub rawX smoothedX) (sub rawY smoothedY) in
  let lerpFactor :=
    if gtb distMoved (lit (5#100)) then lit (3#10) else lit (1#10) in
  (lerp smoothedX rawX lerpFactor, lerp smoothedY rawY lerpFactor).

(** Lines 107-227: the branch on [results.landmarks].  The result is the
    refs after the branch and the store actions it called, in order;
    [None] when the branch throws, which it does before it changes
    anything. *)
Definition onResults (refs : Refs num) (currentMode : AppMode)
    (landmarks : list (list (Landmark.t num))) (now : Z)
    : option (Refs num * list (Action num)) :=
  match landmarks with
  | hand :: _ =>
      match detectedGesture hand, elem hand 0 with
      | Some detected, Some wrist =>
          let history := pushGesture (gestureHistory refs) detected in
          match stableGesture history with
          | Some stable =>
              let transition :=
                modeTransition stable currentMode now (lastGestureTime refs) in
              let '(sx, sy) :=
                smoothCursor (smoothedX refs) (smoothedY refs) wrist in
              Some ({| smoothedX := sx;
                       smoothedY := sy;
                       gestureHistory := history;
                       lastGestureTime :=
                         match transition with
                         | Some _ => now
                         | None => lastGestureTime refs
                         end;
                       lastVideoTime := lastVideoTime refs |},
                    match transition with
                    | Some m => [SetMode m]
                    | None => []
                    end
                    ++ [UpdateHandData
                          (HandData.some (Some stable) (Some sx) (Some sy))])
          | None => None
          end
      | _, _ => None
      end
  | [] =>
      Some (refs, [UpdateHandData (HandData.some (Some NONE) None None)])
  end.

(** Line 98: [lastVideoTime.current = video.currentTime] *)
Definition setLastVideoTime (refs : Refs num) (v : num) : Refs num :=
  {| smoothedX := smoothedX refs;
     smoothedY := smoothedY refs;
     gestureHistory := gestureHistory refs;
     lastGestureTime := lastGestureTime refs;
     lastVideoTime := v |}.

(** Lines 83-231 *)
Definition predictWebcam (refs : Refs num) (store : AppState num)
    (t : Tick num) : Refs num * AppState num * Outcome :=
  if negb (attached t) then (refs, store, Stopped)
  else if Z.eqb (videoWidth t) 0 || Z.eqb (videoHeight t) 0
  then (refs, store, Scheduled)
  else if neqb (currentTime t) (lastVideoTime refs) then
    let refs := setLastVideoTime refs (currentTime t) in
    if ctx t then
      match onResults refs (mode store) (landmarks t) (now t) with
      | Some (refs, actions) =>
          (refs, fold_left dispatch actions store, Scheduled)
      | None => (refs, store, Threw)
      end
    else (refs, store, Scheduled)
  else (refs, store, Scheduled).

End GestureDetector.

(** ** App.tsx and the other callers of the store *)

(** The program's state: the refs of [GestureDetector] and the store. *)
Record Program (num : Type) : Type := {
  refs : Refs num;
  store : AppState num
}.

(** What can happen to the program: an animation frame of
    [GestureDetector], a click on one of the three mode buttons of [App],
    a file upload in [App], and the two store actions [PhotoCloud] calls. *)
Inductive Event (num : Type) : Type :=
| Frame (t : Tick num)
| ClickTree
| ClickText
| ClickScatter
| Upload (newPhotos : list (PhotoData.t num))
| Focus (id : option String.string)
| Describe (id desc : String.string).

Arguments ClickTree {num}.
Arguments ClickText {num}.
Arguments ClickScatter {num}.
Arguments Upload {num} newPhotos.
Arguments Focus {num} id.
Arguments Describe {num} id desc.

Section App.
Context {num : Type} `{JSNumber num}.

Definition initialProgram : Program num :=
  {| refs := initialRefs; store := initialState |}.

Definition step (p : Program num) (e : Event num) : Program num :=
  match e with
  | Frame t =>
      let '(r, s, _) := predictWebcam (refs p) (store p) t in
      {| refs := r; store := s |}
  | ClickTree => {| refs := refs p; store := setMode TREE (store p) |}
  | ClickText => {| refs := refs p; store := setMode TEXT (store p) |}
  | ClickScatter => {| refs := refs p; store := setMode SCATTER (store p) |}
  | Upload newPhotos =>
      {| refs := refs p; store := addPhotos newPhotos (store p) |}
  | Focus id => {| refs := refs p; store := setFocusedPhotoId id (store p) |}
  | Describe id desc =>
      {| refs := refs p; store := updatePhotoDescription id desc (store p) |}
  end.

Definition run (events : list (Event num)) : Program num :=
  fold_left step events initialProgram.

End App.

(** ** The specification's reading of the components *)

Section Specification.
Context {num : Type} `{JSNumber num}.

(** The five predicates of the Gesture Classifier, on [handSize], the
    thumb-to-wrist and thumb-to-index distances and the four
    fingertip-to-wrist distances [d0..d3], in priority order. *)
Definition spec_predicates (handSize thumbDist pinchDist d0 d1 d2 d3 : num)
    : list (GestureType * bool) :=
  [ (HEART,
      gtb thumbDist (mul handSize (lit (8#10)))
      && gtb d0 (mul handSize (lit (14#10)))
      && ltb d1 (mul handSize (lit (12#10)))
      && ltb d2 (mul handSize (lit (12#10)))
      && gtb d3 (mul handSize (lit (14#10))));
    (VICTORY,
      gtb d0 (mul handSize (lit (14#10)))
      && gtb d1 (mul handSize (lit (14#10)))
      && ltb d2 (mul handSize (lit (12#10)))
      && ltb d3 (mul handSize (lit (12#10))));
    (CLOSED_FIST,
      forallb (fun d => ltb d (mul handSize (lit (13#10)))) [d0; d1; d2; d3]);
    (PINCH, ltb pinchDist (mul handSize (lit (5#10))));
    (OPEN_HAND,
      forallb (fun d => gtb d (mul handSize (lit (16#10)))) [d0; d1; d2; d3]) ].

(** First match wins, else NONE. *)
Definition first_match (l : list (GestureType * bool)) : GestureType :=
  match find snd l with
  | Some (g, _) => g
  | None => NONE
  end.

Definition spec_classify (handSize thumbDist pinchDist d0 d1 d2 d3 : num)
    : GestureType :=
  first_match (spec_predicates handSize thumbDist pinchDist d0 d1 d2 d3).

(** The number of samples of [g] in a window, and the position of the
    first sample of [g] in it, counted from the oldest (the length of the
    window when there is none). *)
Definition count (w : list GestureType) (g : GestureType) : nat :=
  count_occ GestureType_eq_dec w g.

Fixpoint first_index (g : GestureType) (w : list GestureType) : nat :=
  match w with
  | [] => 0%nat
  | a :: rest => if GestureType_beq a g then 0%nat else S (first_index g rest)
  end.

(** [s] has a maximal count in [w]. *)
Definition plurality (w : list GestureType) (s : GestureType) : Prop :=
  In s w /\ forall g, (count w g <= count w s)%nat.

(** Among the gestures tied with [s], [s] is the one seen first. *)
Definition earliest_of_ties (w : list GestureType) (s : GestureType) : Prop :=
  forall g, g <> s -> count w g = count w s ->
            (first_index s w < first_index g w)%nat.

(** Among the gestures tied with [s], [s] is the one seen last. *)
Definition latest_of_ties (w : list GestureType) (s : GestureType) : Prop :=
  forall g, g <> s -> count w g = count w s ->
            (first_index g w < first_index s w)%nat.

(** The transition table of the Mode Transition Controller. *)
Definition transitionTable (g : GestureType) : option AppMode :=
  match g with
  | HEART => Some LOVE
  | VICTORY => Some TEXT
  | CLOSED_FIST => Some TREE
  | OPEN_HAND => Some SCATTER
  | PINCH | NONE => None
  end.

(** A transition to [target] commits. *)
Definition commits (stable : GestureType) (currentMode : AppMode)
    (now lastTransitionAtMs : Z) (target : AppMode) : Prop :=
  (now - lastTransitionAtMs > 600)%Z
  /\ transitionTable stable = Some target
  /\ target <> currentMode.

(** A tick the driver processes: the component is attached, the video has
    a size, its frame has advanced and the canvas has a context. *)
Definition processed (r : Refs num) (t : Tick num) : bool :=
  attached t
  && negb (Z.eqb (videoWidth t) 0 || Z.eqb (videoHeight t) 0)
  && neqb (currentTime t) (lastVideoTime r)
  && ctx t.

End Specification.

Section SmootherSpecification.
Context {num : Type} `{JSNumber num}.

(** The raw cursor position of a wrist landmark: mirrored in [x]. *)
Definition rawPosition (wrist : Landmark.t num) : num * num :=
  (sub (lit 1) (Landmark.x wrist), Landmark.y wrist).

(** The Cursor Smoother fed with a sequence of wrist landmarks. *)
Definition smoothAll (wrists : list (Landmark.t num)) (cursor : num * num)
    : num * num :=
  fold_left (fun c wrist => smoothCursor (fst c) (snd c) wrist) wrists cursor.

End SmootherSpecification.

(** In exact arithmetic: the interval [0,1], a wrist whose raw position is
    in the unit square, and the distance of two positions. *)
Definition unit_interval (v : R) : Prop := (0 <= v <= 1)%R.

Definition raw_in_unit_square (wrist : Landmark.t R) : Prop :=
  unit_interval (fst (rawPosition wrist))
  /\ unit_interval (snd (rawPosition wrist)).

Definition dist (p q : R * R) : R :=
  Exact.hypotR (fst p - fst q) (snd p - snd q).

(** The wrist an event feeds to the smoother, if any, has its raw position
    in the unit square. *)
Definition feeds_unit_square (e : Event R) : Prop :=
  match e with
  | Frame t =>
      match landmarks t with
      | hand :: _ =>
          match elem hand 0 with
          | Some wrist => raw_in_unit_square wrist
          | None => True
          end
      | [] => True
      end
  | _ => True
  end.

Section ProgramSpecification.
Context {num : Type} `{JSNumber num}.

(** The event [e] is a tick of the detector on which the Mode Transition
    Controller commits a transition: a processed tick with a hand, whose
    stable gesture maps to a target that differs from the current mode,
    more than 600 ms after the last committed transition. *)
Definition controller_commit (p : Program num) (e : Event num) : Prop :=
  exists t hand rest stable target,
    e = Frame t
    /\ processed (refs p) t = true
    /\ landmarks t = hand :: rest
    /\ stableGesture (gestureHistory (refs (step p e))) = Some stable
    /\ commits stable (mode (store p)) (now t) (lastGestureTime (refs p)) target
    /\ mode (store (step p e)) = target.

(** The event [e] is a click on the mode button of [m]. *)
Definition button_click (e : Event num) (m : AppMode) : Prop :=
  (e = ClickTree /\ m = TREE) \/ (e = ClickText /\ m = TEXT)
  \/ (e = ClickScatter /\ m = SCATTER).

End ProgramSpecification.

(** ** Sample frames, in double arithmetic *)

Module Sample.

Definition point (x y : Q) : Landmark.t float :=
  Landmark.make (lit x) (lit y) (lit 0).

(** A hand of 21 landmarks: the seven the classifier reads, and [other] at
    the remaining indices. *)
Definition hand21
    (wrist thumbTip indexTip mcp middleTip ringTip pinkyTip other
       : Landmark.t float) : list (Landmark.t float) :=
  [ wrist; other; other; other; thumbTip; other; other; other; indexTip;
    mcp; other; other; middleTip; other; other; other; ringTip; other;
    other; other; pinkyTip ].

Definition wrist : Landmark.t float := point (5#10) (9#10).
Definition mcp : Landmark.t float := point (5#10) (7#10).
Definition thumbTip : Landmark.t float := point (45#100) (8#10).
Definition folded : Landmark.t float := point (5#10) (75#100).

(** Index and middle finger up, ring and pinky down. *)
Definition victoryHand : list (Landmark.t float) :=
  hand21 wrist thumbTip (point (45#100) (55#100)) mcp
         (point (55#100) (55#100)) (point (55#100) (75#100))
         (point (6#10) (8#10)) folded.

(** All four fingertips close to the wrist. *)
Definition fistHand : list (Landmark.t float) :=
  hand21 wrist thumbTip folded mcp folded folded folded folded.

(** A tick the driver processes, at video time [time] and clock [now]. *)
Definition tick (time : Q) (hands : list (list (Landmark.t float))) (now : Z)
    : Tick float :=
  {| attached := true;
     videoWidth := 640;
     videoHeight := 480;
     currentTime := lit time;
     ctx := true;
     landmarks := hands;
     now := now |}.

End Sample.

(** ** More of the arithmetic *)

(** The operations the rest of the code uses besides those of
    [JSNumber]. *)
Class JSArith (num : Type) `{JSNumber num} := {
  divide : num -> num -> num;       (* a / b *)
  sqroot : num -> num;              (* Math.sqrt(a) *)
  below_infinity : num -> bool;     (* a < Infinity *)
  maximum : num -> num -> num;      (* Math.max(a, b) *)
  minimum : num -> num -> num;      (* Math.min(a, b) *)
  absolute : num -> num             (* Math.abs(a) *)
}.

(** [Math.max] and [Math.min] on doubles: NaN if an argument is NaN, and
    [+0] above [-0]. *)
Definition max64 (a b : float) : float :=
  if PrimFloat.is_nan a || PrimFloat.is_nan b then PrimFloat.nan
  else if PrimFloat.ltb a b then b
  else if PrimFloat.ltb b a then a
  else if PrimFloat.get_sign a then b else a.

Definition min64 (a b : float) : float :=
  if PrimFloat.is_nan a || PrimFloat.is_nan b then PrimFloat.nan
  else if PrimFloat.ltb a b then a
  else if PrimFloat.ltb b a then b
  else if PrimFloat.get_sign a then a else b.

#[global] Instance double_arith : @JSArith float _ := {|
  divide := PrimFloat.div;
  sqroot := PrimFloat.sqrt;
  below_infinity := fun a => PrimFloat.ltb a PrimFloat.infinity;
  maximum := max64;
  minimum := min64;
  absolute := PrimFloat.abs
|}.

#[global] Instance exact_arith : @JSArith R _ := {|
  divide := Rdiv;
  sqroot := R_sqrt.sqrt;
  below_infinity := fun _ => true;
  maximum := Rmax;
  minimum := Rmin;
  absolute := Rabs
|}.

(** The trigonometry of [Math]; only the exact instance has it. *)
Class JSTrig (num : Type) := {
  PI : num;                  (* Math.PI *)
  sine : num -> num;         (* Math.sin *)
  cosine : num -> num;       (* Math.cos *)
  arccos : num -> num        (* Math.acos *)
}.

#[global] Instance exact_trig : JSTrig R := {|
  PI := Rtrigo1.PI;
  sine := Rtrigo_def.sin;
  cosine := Rtrigo_def.cos;
  arccos := Ratan.acos
|}.

(** ** Strings *)

Import String.StringSyntax Ascii.AsciiSyntax.

(** A value used as a condition: [undefined], [null] and the empty string
    are falsy. *)
Definition truthy (s : option String.string) : bool :=
  match s with
  | Some s => negb (String.eqb s String.EmptyString)
  | None => false
  end.

(** The character [,]. *)
Definition comma : Ascii.ascii := Ascii.ascii_of_nat 44.

(** [s.split(sep)] for a separator of one character. *)
Fixpoint split (sep : Ascii.ascii) (s : String.string) : list String.string :=
  match s with
  | String.EmptyString => [String.EmptyString]
  | String.String c rest =>
      if Ascii.eqb c sep then String.EmptyString :: split sep rest
      else match split sep rest with
           | [] => [String.String c String.EmptyString]
           | first :: others => String.String c first :: others
           end
  end.

(** ** store.ts: the photos [addPhotos] builds *)

(** The values [Math.random] returns while one photo is built, in the
    order of the calls; the last one stands for the id it is turned into by
    [toString(36).substr(2, 9)]. *)
Record Draws (num : Type) : Type := {
  drawTheta : num;
  drawY : num;
  drawR : num;
  drawPhi : num;
  drawId : String.string
}.

Section NewPhotos.
Context {num : Type} `{JSArith num} `{JSTrig num}.

(** Lines 26-55: the body of [urls.map]. *)
Definition newPhoto (url : String.string) (d : Draws num) : PhotoData.t num :=
  let theta := mul (mul (drawTheta d) PI) (lit 2) in
  let y := sub (mul (drawY d) (lit 10)) (lit 5) in
  let h := divide (add y (lit 6)) (lit 12) in
  let radiusAtY := mul (lit (42#10)) (sub (lit 1) h) in
  let x := mul radiusAtY (cosine theta) in
  let z := mul radiusAtY (sine theta) in
  let r := add (lit 10) (mul (drawR d) (lit 5)) in
  let phi := arccos (sub (mul (lit 2) (drawPhi d)) (lit 1)) in
  let scatterX := mul (mul r (sine phi)) (cosine theta) in
  let scatterY := mul (mul r (sine phi)) (sine theta) in
  let scatterZ := mul r (cosine phi) in
  PhotoData.make (drawId d) url (x, y, z) (scatterX, scatterY, scatterZ) None.

(** Lines 24-63: [addPhotos(urls)], where [draws k] are the random values
    of the [k]-th url. *)
Definition addPhotoUrls (urls : list String.string) (draws : nat -> Draws num)
    (s : AppState num) : AppState num :=
  addPhotos
    (map (fun ku => newPhoto (snd ku) (draws (fst ku)))
         (combine (seq 0 (length urls)) urls))
    s.

(** App.tsx, lines 15-24: [handleFileUpload]; [files] is [e.target.files]
    and [createObjectURL] the url the browser gives a file. *)
Definition handleFileUpload {File : Type} (files : option (list File))
    (createObjectURL : File -> String.string) (draws : nat -> Draws num)
    (s : AppState num) : AppState num :=
  match files with
  | Some (file :: others) =>
      addPhotoUrls (map createObjectURL (file :: others)) draws s
  | _ => s
  end.

End NewPhotos.

(** ** services/geminiService.ts *)

Module Gemini.

Local Open Scope string_scope.

(** The client, with the key it was built with. *)
Record GoogleGenAI : Set := { apiKey : String.string }.

(** Lines 77-82; [API_KEY] is [process.env.API_KEY] at the call.  The
    result is both the value returned and the new value of [client]. *)
Definition getClient (API_KEY : option String.string)
    (client : option GoogleGenAI) : option GoogleGenAI :=
  match client with
  | Some c => Some c
  | None =>
      match API_KEY with
      | Some key => if truthy (Some key) then Some {| apiKey := key |} else None
      | None => None
      end
  end.

(** What the network answers: [fetchDataUrl url] is the data url read from
    the fetched blob ([None] when the fetch, the blob or the reader fails
    inside the [try]); [generateContent ai data] is the [text] of the
    result, which can be [undefined] ([None] when the call fails). *)
Record Network : Type := {
  fetchDataUrl : String.string -> option String.string;
  generateContent :
    GoogleGenAI -> option String.string -> option (option String.string)
}.

(** A call that went out. *)
Inductive Request : Set :=
| Fetch (imageUrl : String.string)
| Generate (base64Data : option String.string).

(** Lines 84-127.  The result: the new [client], the calls made and the
    string the promise resolves with. *)
Definition generateHolidayDescription (net : Network)
    (API_KEY : option String.string) (client : option GoogleGenAI)
    (imageUrl : String.string)
    : option GoogleGenAI * list Request * String.string :=
  match getClient API_KEY client with
  | None =>
      (None, [], "Upload your API Key to see magic descriptions!")
  | Some ai =>
      match fetchDataUrl net imageUrl with
      | None => (Some ai, [Fetch imageUrl], "A magical Christmas memory.")
      | Some result =>
          let base64 := elem (split comma result) 1 in
          match generateContent net ai base64 with
          | None =>
              (Some ai, [Fetch imageUrl; Generate base64],
               "A magical Christmas memory.")
          | Some text =>
              (Some ai, [Fetch imageUrl; Generate base64],
               if truthy text
               then match text with Some t => t | None => String.EmptyString end
               else "Merry Christmas!")
          end
      end
  end.

End Gemini.

(** ** components/PhotoCloud.tsx *)

Module PhotoCloud.

(** An entry of [itemsRef] as the loop sees it: its key and the [x] and [y]
    of the mesh's world position once projected by the camera. *)
Record Projected (num : Type) : Type := {
  key : String.string;
  ndcX : num;
  ndcY : num
}.

(** What a frame or a click asks for: a call of [setFocusedPhotoId], or a
    description of the photo [id] from its [url], written to the store by
    [updatePhotoDescription] when it arrives. *)
Inductive Effect : Set :=
| SetFocusedPhotoId (id : option String.string)
| RequestDescription (id url : String.string).

Section Loop.
Context {num : Type} `{JSArith num}.

(** Lines 49-55: the distance of an item to the hand cursor on screen. *)
Definition screenDistance (handData : HandData.t num) (item : Projected num)
    : num :=
  let screenX := divide (add (ndcX item) (lit 1)) (lit 2) in
  let screenY := divide (sub (lit 1) (ndcY item)) (lit 2) in
  let dx := sub screenX (HandData.x handData) in
  let dy := sub screenY (HandData.y handData) in
  sqroot (add (mul dx dx) (mul dy dy)).

(** [dist < minDistance], where no [minDistance] yet is [Infinity]. *)
Definition closer (dist : num) (minDistance : option num) : bool :=
  match minDistance with
  | None => below_infinity dist
  | Some m => ltb dist m
  end.

(** Lines 37-62: [closestId] and [minDistance] after the [forEach], which
    visits the items in the order they were registered. *)
Definition closest (handData : HandData.t num) (items : list (Projected num))
    : option String.string * option num :=
  fold_left
    (fun best item =>
       let dist := screenDistance handData item in
       if closer dist (snd best) then (Some (key item), Some dist) else best)
    items (None, None).

(** Lines 71-76: the description asked for the photo just focused. *)
Definition describeIfMissing (photos : list (PhotoData.t num))
    (closestId : String.string) : list Effect :=
  match find (fun p => String.eqb (PhotoData.id p) closestId) photos with
  | Some photo =>
      if truthy (PhotoData.description photo) then []
      else [RequestDescription closestId (PhotoData.url photo)]
  | None => []
  end.

(** Lines 22-79: one frame of the interaction loop on the store [s], whose
    [photos] the component renders with. *)
Definition interaction (s : AppState num) (items : list (Projected num))
    : list Effect :=
  if truthy (focusedPhotoId s) then
    if GestureType_beq (HandData.gesture (handData s)) OPEN_HAND
    then [SetFocusedPhotoId None] else []
  else if GestureType_beq (HandData.gesture (handData s)) PINCH then
    match closest (handData s) items with
    | (Some closestId, Some minDistance) =>
        if truthy (Some closestId) && ltb minDistance (lit (2#10))
        then SetFocusedPhotoId (Some closestId)
             :: describeIfMissing (photos s) closestId
        else []
    | _ => []
    end
  else [].

(** Lines 314-324: a click on the photo [data]. *)
Definition onClick (s : AppState num) (data : PhotoData.t num) : list Effect :=
  let isFocused :=
    match focusedPhotoId s with
    | Some id => String.eqb id (PhotoData.id data)
    | None => false
    end in
  if AppMode_beq (mode s) SCATTER || isFocused then
    SetFocusedPhotoId (if isFocused then None else Some (PhotoData.id data))
    :: (if negb isFocused && negb (truthy (PhotoData.description data))
        then [RequestDescription (PhotoData.id data) (PhotoData.url data)]
        else [])
  else [].

(** The calls of [setFocusedPhotoId] among the effects, made on the
    store. *)
Definition applyEffects (effects : list Effect) (s : AppState num)
    : AppState num :=
  fold_left
    (fun s e =>
       match e with
       | SetFocusedPhotoId id => setFocusedPhotoId id s
       | RequestDescription _ _ => s
       end)
    effects s.

End Loop.

Section Item.
Context {num : Type} `{JSArith num} `{JSTrig num}.

(** Lines 160-186: where a photo that is not focused heads for, and at
    what scale, at clock time [elapsedTime]; [-a] is written [0 - a]. *)
Definition restTarget (m : AppMode) (elapsedTime : num)
    (data : PhotoData.t num) : (num * num * num) * num :=
  let '(px, py, pz) := PhotoData.position data in
  if AppMode_beq m TREE then
    let angle := mul elapsedTime (lit (15#100)) in
    let s := sine angle in
    let c := cosine angle in
    let rotatedX := add (mul px c) (mul pz s) in
    let rotatedZ := add (mul (sub (lit 0) px) s) (mul pz c) in
    ((rotatedX, py, rotatedZ), lit (8#10))
  else
    let '(sx, sy, sz) := PhotoData.scatterPosition data in
    ((sx, add sy (mul (sine (add elapsedTime px)) (lit (1#10))), sz),
     lit (12#10)).

End Item.

End PhotoCloud.

(** ** GestureDetector.tsx: loading the hand landmarker *)

Module Loader.

(** The module variable [landmarkerPromise], a promise being known by its
    number, and the number of promises made so far. *)
Record Cache : Set := {
  landmarkerPromise : option nat;
  created : nat
}.

Definition empty : Cache := {| landmarkerPromise := None; created := 0 |}.

(** Lines 12-38, as far as the call runs before it returns: the cache after
    the call and the promise returned. *)
Definition initializeHandLandmarker (c : Cache) : Cache * nat :=
  match landmarkerPromise c with
  | Some p => (c, p)
  | None =>
      ({| landmarkerPromise := Some (created c); created := S (created c) |},
       created c)
  end.

(** Lines 31-35: the [catch] of a promise whose loading fails, which runs
    after the call has returned. *)
Definition onRejected (c : Cache) : Cache :=
  {| landmarkerPromise := None; created := created c |}.

(** What happens around the cache: a call, and the loading of promise [p]
    failing or succeeding. *)
Inductive Event : Set :=
| Call
| Rejects (p : nat)
| Resolves (p : nat).

(** The cache with the promises still loading and those loaded. *)
Record World : Set := {
  cache : Cache;
  loading : list nat;
  loaded : list nat
}.

Definition start : World := {| cache := empty; loading := []; loaded := [] |}.

(** A promise settles once, while it is loading; other settlements do not
    happen. *)
Definition step (w : World) (e : Event) : World :=
  match e with
  | Call =>
      match landmarkerPromise (cache w) with
      | Some _ =>
          {| cache := fst (initializeHandLandmarker (cache w));
             loading := loading w;
             loaded := loaded w |}
      | None =>
          {| cache := fst (initializeHandLandmarker (cache w));
             loading := snd (initializeHandLandmarker (cache w)) :: loading w;
             loaded := loaded w |}
      end
  | Rejects p =>
      if existsb (Nat.eqb p) (loading w) then
        {| cache := onRejected (cache w);
           loading := filter (fun q => negb (Nat.eqb p q)) (loading w);
           loaded := loaded w |}
      else w
  | Resolves p =>
      if existsb (Nat.eqb p) (loading w) then
        {| cache := cache w;
           loading := filter (fun q => negb (Nat.eqb p q)) (loading w);
           loaded := p :: loaded w |}
      else w
  end.

Definition run (events : list Event) : World := fold_left step events start.

(** What the effect of lines 56-81 does, in order. *)
Inductive Did : Set :=
| Wait (ms : Z)
| Load (attempt : nat)
| SetLandmarker (attempt : nat)
| LogError (attempt : nat).

(** What the effect meets: whether the loading of an attempt succeeds, and
    whether the component is still mounted after the delay of an attempt
    and after its loading. *)
Record Env : Set := {
  resolves : nat -> bool;
  mountedAfterDelay : nat -> bool;
  mountedAfterLoad : nat -> bool
}.

(** Lines 59-77: [init(attempt)], with the retry it schedules. *)
Equations? init (env : Env) (attempt : nat) : list Did by wf (3 - attempt)%nat lt :=
  init env attempt :=
    Wait 500 ::
    (if mountedAfterDelay env attempt then
       Load attempt ::
       (if resolves env attempt then
          if mountedAfterLoad env attempt then [SetLandmarker attempt] else []
        else
          LogError attempt ::
          (match Nat.ltb attempt 3 as b return Nat.ltb attempt 3 = b -> _ with
           | true => fun _ =>
               if mountedAfterLoad env attempt
               then Wait (Z.of_nat attempt * 1000) :: init env (S attempt)
               else []
           | false => fun _ => []
           end eq_refl))
     else []).
Proof.
  destruct attempt as [|[|[|attempt]]]; cbn in *; try lia; discriminate.
Qed.

End Loader.

(** ** components/Scene.tsx: [CameraController] *)

Module Camera.

(** [THREE.Vector3] *)
Record Vector3 (num : Type) : Type := vec { vx : num; vy : num; vz : num }.

(** The refs of the component. *)
Record View (num : Type) : Type := {
  autoAngle : num;
  targetZoom : num;
  targetOrbit : num * num;        (* x: azimuth, y: height offset *)
  targetPan : Vector3 num;
  currentZoom : num;
  currentOrbit : num * num;
  currentPan : Vector3 num
}.

(** The variables of the closure the input effect builds, with the
    [focusedPhotoId] the effect ran with, as a condition. *)
Record Drag (num : Type) : Type := {
  focused : bool;
  isDragging : bool;
  lastX : num;
  lastY : num
}.

(** What the canvas and the renderer send. *)
Inductive Input (num : Type) : Type :=
| Wheel (deltaY : num)
| PointerDown (clientX clientY : num)
| PointerMove (clientX clientY : num) (buttons : Z)
| PointerUp
| Rebind (focusedPhotoId : option String.string)
| Render (focusedPhotoId : option String.string) (m : AppMode)
         (handData : HandData.t num) (portrait : bool)
         (elapsedTime delta : num).

Arguments PointerUp {num}.
Arguments Rebind {num} focusedPhotoId.

Section Controller.
Context {num : Type} `{JSArith num}.

(** [THREE.MathUtils.clamp(value, min, max)], which is
    [Math.max(min, Math.min(max, value))]. *)
Definition clamp (value mn mx : num) : num := maximum mn (minimum mx value).

(** [THREE.MathUtils.lerp(x, y, t)], which is [(1 - t) * x + t * y]. *)
Definition mlerp (x y t : num) : num :=
  add (mul (sub (lit 1) t) x) (mul t y).

(** [a.lerp(v, alpha)] of a [Vector3]: [a.x += (v.x - a.x) * alpha], and
    so for [y] and [z]. *)
Definition vlerp (a v : Vector3 num) (alpha : num) : Vector3 num :=
  vec (add (vx a) (mul (sub (vx v) (vx a)) alpha))
      (add (vy a) (mul (sub (vy v) (vy a)) alpha))
      (add (vz a) (mul (sub (vz v) (vz a)) alpha)).

(** [a.add(v)] *)
Definition vadd (a v : Vector3 num) : Vector3 num :=
  vec (add (vx a) (vx v)) (add (vy a) (vy v)) (add (vz a) (vz v)).

Definition origin : Vector3 num := vec (lit 0) (lit 0) (lit 0).

Definition initialView : View num :=
  {| autoAngle := lit 0;
     targetZoom := lit 1;
     targetOrbit := (lit 0, lit 0);
     targetPan := origin;
     currentZoom := lit 1;
     currentOrbit := (lit 0, lit 0);
     currentPan := origin |}.

(** Line 101-103: a fresh closure. *)
Definition bind (focusedPhotoId : option String.string) : Drag num :=
  {| focused := truthy focusedPhotoId;
     isDragging := false;
     lastX := lit 0;
     lastY := lit 0 |}.

(** Lines 90-99 *)
Definition handleWheel (d : Drag num) (deltaY : num) (v : View num)
    : View num :=
  if focused d then v
  else
    let sensitivity := lit (1#1000) in
    let delta := mul deltaY sensitivity in
    {| autoAngle := autoAngle v;
       targetZoom :=
         clamp (add (targetZoom v) delta) (lit (4#10)) (lit (25#10));
       targetOrbit := targetOrbit v;
       targetPan := targetPan v;
       currentZoom := currentZoom v;
       currentOrbit := currentOrbit v;
       currentPan := currentPan v |}.

(** Lines 105-111 *)
Definition handlePointerDown (d : Drag num) (clientX clientY : num)
    : Drag num :=
  if focused d then d
  else {| focused := focused d;
          isDragging := true;
          lastX := clientX;
          lastY := clientY |}.

(** Lines 113-137 *)
Definition handlePointerMove (d : Drag num) (clientX clientY : num)
    (buttons : Z) (v : View num) : Drag num * View num :=
  if negb (isDragging d) then (d, v)
  else
    let dx := sub clientX (lastX d) in
    let dy := sub clientY (lastY d) in
    let d' := {| focused := focused d;
                 isDragging := isDragging d;
                 lastX := clientX;
                 lastY := clientY |} in
    if Z.eqb buttons 1 then
      let orbitSpeed := lit (5#1000) in
      let heightSpeed := lit (2#100) in
      (d', {| autoAngle := autoAngle v;
              targetZoom := targetZoom v;
              targetOrbit :=
                (sub (fst (targetOrbit v)) (mul dx orbitSpeed),
                 add (snd (targetOrbit v)) (mul dy heightSpeed));
              targetPan := targetPan v;
              currentZoom := currentZoom v;
              currentOrbit := currentOrbit v;
              currentPan := currentPan v |})
    else if Z.eqb buttons 2 || Z.eqb buttons 4 then
      let panSpeed := lit (2#100) in
      (d', {| autoAngle := autoAngle v;
              targetZoom := targetZoom v;
              targetOrbit := targetOrbit v;
              targetPan :=
                vec (sub (vx (targetPan v)) (mul dx panSpeed))
                    (add (vy (targetPan v)) (mul dy panSpeed))
                    (vz (targetPan v));
              currentZoom := currentZoom v;
              currentOrbit := currentOrbit v;
              currentPan := currentPan v |})
    else (d', v).

(** Lines 139-142 *)
Definition handlePointerUp (d : Drag num) : Drag num :=
  {| focused := focused d;
     isDragging := false;
     lastX := lastX d;
     lastY := lastY d |}.

(** Lines 163-183: the refs after the smoothing of a frame. *)
Definition smoothed (focusedPhotoId : option String.string) (delta : num)
    (v : View num) : View num :=
  if truthy focusedPhotoId then
    {| autoAngle := autoAngle v;
       targetZoom := lit 1;
       targetOrbit := (lit 0, lit 0);
       targetPan := origin;
       currentZoom := mlerp (currentZoom v) (lit 1) (mul delta (lit 2));
       currentOrbit :=
         (mlerp (fst (currentOrbit v)) (lit 0) (mul delta (lit 2)),
          mlerp (snd (currentOrbit v)) (lit 0) (mul delta (lit 2)));
       currentPan := vlerp (currentPan v) origin (mul delta (lit 2)) |}
  else
    let damping := lit 5 in
    {| autoAngle := autoAngle v;
       targetZoom := targetZoom v;
       targetOrbit := targetOrbit v;
       targetPan := targetPan v;
       currentZoom :=
         mlerp (currentZoom v) (targetZoom v) (mul delta damping);
       currentOrbit :=
         (mlerp (fst (currentOrbit v)) (fst (targetOrbit v))
                (mul delta damping),
          mlerp (snd (currentOrbit v)) (snd (targetOrbit v))
                (mul delta damping));
       currentPan := vlerp (currentPan v) (targetPan v) (mul delta damping) |}.

End Controller.

Section Frame.
Context {num : Type} `{JSArith num} `{JSTrig num}.

(** Lines 162-243: a frame.  The result is the refs after the frame and,
    unless a photo is focused, the position given to the camera and the
    point it looks at. *)
Definition useFrame (focusedPhotoId : option String.string) (m : AppMode)
    (handData : HandData.t num) (portrait : bool) (elapsedTime delta : num)
    (v : View num)
    : View num * option (Vector3 num * Vector3 num) :=
  let baseZ := if portrait then lit (175#10) else lit 14 in
  let scatterRadius := if portrait then lit 28 else lit 22 in
  let v := smoothed focusedPhotoId delta v in
  if truthy focusedPhotoId then (v, None)
  else if AppMode_beq m SCATTER then
    let rotationInput := sub (HandData.x handData) (lit (5#10)) in
    let rotationInput :=
      if ltb (absolute rotationInput) (lit (5#100)) then lit 0
      else rotationInput in
    let rotationSpeed := mul rotationInput (lit (15#10)) in
    let angle :=
      if GestureType_beq (HandData.gesture handData) OPEN_HAND
      then add (autoAngle v) (mul rotationSpeed delta)
      else add (autoAngle v) (mul delta (lit (5#100))) in
    let heightInput :=
      mul (sub (HandData.y handData) (lit (5#10))) (lit (-10#1)) in
    let clampedHeight :=
      clamp (add (lit 2) heightInput) (lit (-2#1)) (lit 8) in
    let finalAngle := add angle (fst (currentOrbit v)) in
    let finalRadius := mul scatterRadius (currentZoom v) in
    let basePos :=
      vec (mul (sine finalAngle) finalRadius)
          (add clampedHeight (snd (currentOrbit v)))
          (mul (cosine finalAngle) finalRadius) in
    ({| autoAngle := angle;
        targetZoom := targetZoom v;
        targetOrbit := targetOrbit v;
        targetPan := targetPan v;
        currentZoom := currentZoom v;
        currentOrbit := currentOrbit v;
        currentPan := currentPan v |},
     Some (vadd basePos (currentPan v), vadd origin (currentPan v)))
  else
    let finalRadius := mul baseZ (currentZoom v) in
    let bob := mul (sine (mul elapsedTime (lit (5#10)))) (lit (5#10)) in
    let finalY := add bob (snd (currentOrbit v)) in
    let theta := fst (currentOrbit v) in
    let x := mul (sine theta) finalRadius in
    let z := mul (cosine theta) finalRadius in
    (v, Some (vadd (vec x finalY z) (currentPan v),
              vadd origin (currentPan v))).

(** The component fed with inputs: the view and the closure after each. *)
Definition feed (state : Drag num * View num) (i : Input num)
    : Drag num * View num :=
  let '(d, v) := state in
  match i with
  | Wheel deltaY => (d, handleWheel d deltaY v)
  | PointerDown clientX clientY => (handlePointerDown d clientX clientY, v)
  | PointerMove clientX clientY buttons =>
      handlePointerMove d clientX clientY buttons v
  | PointerUp => (handlePointerUp d, v)
  | Rebind focusedPhotoId => (bind focusedPhotoId, v)
  | Render focusedPhotoId m handData portrait elapsedTime delta =>
      (d, fst (useFrame focusedPhotoId m handData portrait elapsedTime
                        delta v))
  end.

End Frame.

End Camera.

(** ** Readings of the pipeline used by the further properties *)

(** The clocks of the ticks of [events], run from [p], on which a gesture
    changed the mode. *)
Fixpoint gestureModeChanges {num} `{JSNumber num} (p : Program num)
    (events : list (Event num)) : list Z :=
  match events with
  | [] => []
  | e :: rest =>
      match e with
      | Frame t =>
          if AppMode_beq (mode (store (step p e))) (mode (store p))
          then [] else [now t]
      | _ => []
      end ++ gestureModeChanges (step p e) rest
  end.

(** A landmark moved and scaled in the image plane, its depth replaced. *)
Definition similar (k dx dy : R) (depth : R -> R) (p : Landmark.t R)
    : Landmark.t R :=
  Landmark.make (k * Landmark.x p + dx)%R (k * Landmark.y p + dy)%R
                (depth (Landmark.z p)).

(** Whether the character [c] occurs in [s]. *)
Fixpoint occurs (c : Ascii.ascii) (s : String.string) : bool :=
  match s with
  | String.EmptyString => false
  | String.String c' rest => Ascii.eqb c' c || occurs c rest
  end.

(** The attempts loaded in a trace of the loading effect, in order, and
    the time it waited in all. *)
Definition loads (trace : list Loader.Did) : list nat :=
  flat_map (fun d => match d with Loader.Load k => [k] | _ => [] end) trace.

Definition waited (trace : list Loader.Did) : Z :=
  fold_right (fun d total =>
                match d with Loader.Wait ms => (ms + total)%Z | _ => total end)
             0%Z trace.

(** The component stays mounted. *)
Definition staysMounted (env : Loader.Env) : Prop :=
  forall k, Loader.mountedAfterDelay env k = true
            /\ Loader.mountedAfterLoad env k = true.

(** An input of the pointer or of the wheel. *)
Definition fromCanvas {num} (i : Camera.Input num) : bool :=
  match i with
  | Camera.Wheel _ | Camera.PointerDown _ _ | Camera.PointerMove _ _ _
  | Camera.PointerUp => true
  | Camera.Rebind _ | Camera.Render _ _ _ _ _ _ => false
  end.

(** ** Equality on the two enumerations *)

Lemma GestureType_beq_spec (a b : GestureType) :
  reflect (a = b) (GestureType_beq a b).
Proof. destruct a, b; constructor; congruence. Qed.

Lemma AppMode_beq_spec (a b : AppMode) : reflect (a = b) (AppMode_beq a b).
Proof. destruct a, b; constructor; congruence. Qed.

Lemma GestureType_beq_refl (a : GestureType) : GestureType_beq a a = true.
Proof. destruct a; reflexivity. Qed.

(** ** Gesture Classifier *)

Section Classifier.
Context {num : Type} `{JSNumber num}.

Lemma detectedGesture_landmarks (hand : list (Landmark.t num))
    (wrist thumbTip indexTip mcp middleTip ringTip pinkyTip : Landmark.t num) :
  elem hand 0 = Some wrist -> elem hand 4 = Some thumbTip ->
  elem hand 8 = Some indexTip -> elem hand 9 = Some mcp ->
  elem hand 12 = Some middleTip -> elem hand 16 = Some ringTip ->
  elem hand 20 = Some pinkyTip ->
  detectedGesture hand =
  Some (let handSize := distance2d mcp wrist in
        let fds := map (fun tip => distance2d tip wrist)
                       [indexTip; middleTip; ringTip; pinkyTip] in
        if isLove handSize thumbTip wrist fds then HEART
        else if isVictory handSize fds then VICTORY
        else if isFist handSize fds then CLOSED_FIST
        else if isPinch handSize (distance2d thumbTip indexTip) then PINCH
        else if isOpen handSize fds then OPEN_HAND
        else NONE).
Proof.
  intros H0 H4 H8 H9 H12 H16 H20. unfold detectedGesture.
  rewrite H0, H4, H8, H9, H12, H16, H20. reflexivity.
Qed.

(** C1. On a hand that has its landmarks 0, 4, 8, 9, 12, 16 and 20, the
    classifier returns the first predicate that holds, in the order
    HEART, VICTORY, CLOSED_FIST, PINCH, OPEN_HAND, else NONE, with the
    specification's thresholds, where [handSize] is the distance of the
    middle-finger MCP to the wrist and [d0..d3] the distances of the
    index, middle, ring and pinky tips to the wrist.  This holds at every
    instance of the arithmetic. *)
Theorem detectedGesture_first_match (hand : list (Landmark.t num))
    (wrist thumbTip indexTip mcp middleTip ringTip pinkyTip : Landmark.t num) :
  elem hand 0 = Some wrist -> elem hand 4 = Some thumbTip ->
  elem hand 8 = Some indexTip -> elem hand 9 = Some mcp ->
  elem hand 12 = Some middleTip -> elem hand 16 = Some ringTip ->
  elem hand 20 = Some pinkyTip ->
  detectedGesture hand =
  Some (spec_classify (distance2d mcp wrist)
          (distance2d thumbTip wrist) (distance2d thumbTip indexTip)
          (distance2d indexTip wrist) (distance2d middleTip wrist)
          (distance2d ringTip wrist) (distance2d pinkyTip wrist)).
Proof.
  intros H0 H4 H8 H9 H12 H16 H20.
  rewrite (detectedGesture_landmarks hand H0 H4 H8 H9 H12 H16 H20).
  f_equal.
  unfold spec_classify, spec_predicates, first_match, isLove, isVictory,
    isFist, isPinch, isOpen, thumbUp, indexUp, middleUp, middleDown,
    ringDown, pinkyDown, pinkyUp, OPEN_RATIO, FIST_RATIO, PINCH_RATIO.
  cbn [map elem nth_error gtb_u ltb_u forallb find snd].
  set (h := distance2d mcp wrist).
  destruct (gtb (distance2d thumbTip wrist) (mul h (lit (8#10))));
  destruct (gtb (distance2d indexTip wrist) (mul h (lit (14#10))));
  destruct (ltb (distance2d middleTip wrist) (mul h (lit (12#10))));
  destruct (ltb (distance2d ringTip wrist) (mul h (lit (12#10))));
  destruct (gtb (distance2d pinkyTip wrist) (mul h (lit (14#10))));
  destruct (gtb (distance2d middleTip wrist) (mul h (lit (14#10))));
  destruct (ltb (distance2d pinkyTip wrist) (mul h (lit (12#10))));
  cbn [andb]; try reflexivity;
  rewrite ?andb_true_r;
  destruct (ltb (distance2d indexTip wrist) (mul h (lit (13#10))));
  destruct (ltb (distance2d middleTip wrist) (mul h (lit (13#10))));
  destruct (ltb (distance2d ringTip wrist) (mul h (lit (13#10))));
  destruct (ltb (distance2d pinkyTip wrist) (mul h (lit (13#10))));
  cbn [andb]; try reflexivity;
  destruct (ltb (distance2d thumbTip indexTip) (mul h (lit (5#10))));
  try reflexivity;
  destruct (gtb (distance2d indexTip wrist) (mul h (lit (16#10))));
  destruct (gtb (distance2d middleTip wrist) (mul h (lit (16#10))));
  destruct (gtb (distance2d ringTip wrist) (mul h (lit (16#10))));
  destruct (gtb (distance2d pinkyTip wrist) (mul h (lit (16#10))));
  reflexivity.
Qed.

End Classifier.

(** ** Objects as insertion-ordered association lists *)

Section ObjectFacts.
Context {K V : Type} (eqb : K -> K -> bool).
Hypothesis eqb_spec : forall a b, reflect (a = b) (eqb a b).

Lemma obj_get_set (o : Obj K V) k v k' :
  obj_get eqb (obj_set eqb o k v) k' =
  if eqb k' k then Some v else obj_get eqb o k'.
Proof.
  induction o as [|[k0 v0] o IH]; simpl.
  - reflexivity.
  - destruct (eqb_spec k k0) as [->|Hk]; simpl.
    + destruct (eqb_spec k' k0); reflexivity.
    + destruct (eqb_spec k' k0) as [->|Hk'].
      * destruct (eqb_spec k0 k); [congruence|reflexivity].
      * apply IH.
Qed.

Lemma obj_keys_set (o : Obj K V) k v :
  obj_keys (obj_set eqb o k v) =
  match obj_get eqb o k with
  | Some _ => obj_keys o
  | None => obj_keys o ++ [k]
  end.
Proof.
  unfold obj_keys. induction o as [|[k0 v0] o IH]; simpl.
  - reflexivity.
  - destruct (eqb_spec k k0) as [->|Hk]; simpl.
    + reflexivity.
    + rewrite IH. destruct (obj_get eqb o k); reflexivity.
Qed.

Lemma obj_get_None (o : Obj K V) k :
  obj_get eqb o k = None <-> ~ In k (obj_keys o).
Proof.
  unfold obj_keys. induction o as [|[k0 v0] o IH]; simpl.
  - tauto.
  - destruct (eqb_spec k k0) as [->|Hk].
    + split; [discriminate|tauto].
    + rewrite IH. split; [intros Hn [He|Hi]; [congruence|tauto]|tauto].
Qed.

End ObjectFacts.

(** ** Sorted lists *)

Section SortedFacts.
Context {A : Type}.

Lemma StronglySorted_impl_In (R R' : A -> A -> Prop) (l : list A) :
  (forall a b, In a l -> In b l -> R a b -> R' a b) ->
  StronglySorted R l -> StronglySorted R' l.
Proof.
  intros Himp Hs. induction Hs as [|a l Hs IH Hall].
  - constructor.
  - constructor.
    + apply IH. intros x y Hx Hy. apply Himp; right; assumption.
    + rewrite Forall_forall in *. intros x Hx.
      apply Himp; [left; reflexivity|right; assumption|auto].
Qed.

Lemma StronglySorted_snoc (R : A -> A -> Prop) (l : list A) (x : A) :
  StronglySorted R l -> (forall a, In a l -> R a x) ->
  StronglySorted R (l ++ [x]).
Proof.
  intros Hs Hx. induction Hs as [|a l Hs IH Hall]; simpl.
  - repeat constructor.
  - constructor.
    + apply IH. intros y Hy. apply Hx. right. assumption.
    + apply Forall_app. split; [assumption|].
      constructor; [apply Hx; left; reflexivity|constructor].
Qed.

End SortedFacts.

(** ** Temporal Stabilizer *)

Lemma first_index_lt g w : In g w -> (first_index g w < length w)%nat.
Proof.
  induction w as [|a w IH]; simpl; [tauto|].
  intros [->|Hin].
  - rewrite GestureType_beq_refl. lia.
  - destruct (GestureType_beq a g); [lia|]. specialize (IH Hin). lia.
Qed.

Lemma first_index_app_In g w l :
  In g w -> first_index g (w ++ l) = first_index g w.
Proof.
  induction w as [|a w IH]; simpl; [tauto|].
  intros [->|Hin].
  - rewrite GestureType_beq_refl. reflexivity.
  - destruct (GestureType_beq a g); [reflexivity|]. rewrite IH by assumption.
    reflexivity.
Qed.

Lemma first_index_app_notIn g w l :
  ~ In g w -> first_index g (w ++ l) = (length w + first_index g l)%nat.
Proof.
  induction w as [|a w IH]; simpl; [reflexivity|].
  intros Hn. destruct (GestureType_beq_spec a g) as [->|Hne]; [tauto|].
  rewrite IH by tauto. reflexivity.
Qed.

Lemma count_snoc w x g :
  count (w ++ [x]) g = (count w g + if GestureType_beq x g then 1 else 0)%nat.
Proof.
  unfold count. rewrite count_occ_app. simpl.
  destruct (GestureType_eq_dec x g) as [->|Hne].
  - rewrite GestureType_beq_refl. reflexivity.
  - destruct (GestureType_beq_spec x g); [congruence|reflexivity].
Qed.

Lemma count_pos_In w g : (0 < count w g)%nat <-> In g w.
Proof. unfold count. symmetry. apply count_occ_In. Qed.

Section Stabilizer.
Context {num : Type} `{JSNumber num}.

Lemma countGestures_snoc w g :
  countGestures (w ++ [g]) =
  obj_set GestureType_beq (countGestures w) g
    (or0 (obj_get GestureType_beq (countGestures w) g) + 1)%nat.
Proof. unfold countGestures. rewrite fold_left_app. reflexivity. Qed.

Lemma countGestures_get w g :
  obj_get GestureType_beq (countGestures w) g =
  match count w g with
  | O => None
  | S n => Some (S n)
  end.
Proof.
  induction w as [|x w IH] using rev_ind.
  - reflexivity.
  - rewrite countGestures_snoc, (obj_get_set _ GestureType_beq_spec), count_snoc.
    destruct (GestureType_beq_spec g x) as [->|Hne].
    + rewrite GestureType_beq_refl, IH.
      destruct (count w x); reflexivity.
    + destruct (GestureType_beq_spec x g); [congruence|].
      rewrite IH, Nat.add_0_r. reflexivity.
Qed.

Lemma countGestures_keys_In w g :
  In g (obj_keys (countGestures w)) <-> In g w.
Proof.
  rewrite <- (count_pos_In w g).
  destruct (in_dec GestureType_eq_dec g (obj_keys (countGestures w))) as [Hi|Hn].
  - split; [intros _|tauto].
    destruct (count w g) eqn:Hc; [|lia].
    exfalso. revert Hi. apply (obj_get_None _ GestureType_beq_spec).
    rewrite countGestures_get, Hc. reflexivity.
  - split; [tauto|intros Hc].
    apply (obj_get_None _ GestureType_beq_spec) in Hn.
    rewrite countGestures_get in Hn. destruct (count w g); [lia|discriminate].
Qed.

Lemma countGestures_keys_sorted w :
  StronglySorted (fun a b => (first_index a w < first_index b w)%nat)
                 (obj_keys (countGestures w)).
Proof.
  induction w as [|x w IH] using rev_ind.
  - constructor.
  - rewrite countGestures_snoc, (obj_keys_set _ GestureType_beq_spec).
    assert (Hold : StronglySorted
              (fun a b => (first_index a (w ++ [x]) < first_index b (w ++ [x]))%nat)
              (obj_keys (countGestures w))).
    { revert IH. apply StronglySorted_impl_In. intros a b Ha Hb.
      apply (proj1 (countGestures_keys_In _ _)) in Ha, Hb.
      rewrite !first_index_app_In by assumption. trivial. }
    destruct (obj_get GestureType_beq (countGestures w) x) eqn:Hg.
    + exact Hold.
    + apply StronglySorted_snoc; [exact Hold|].
      intros a Ha. apply (proj1 (countGestures_keys_In _ _)) in Ha.
      apply (obj_get_None _ GestureType_beq_spec) in Hg.
      rewrite countGestures_keys_In in Hg.
      rewrite first_index_app_In by assumption.
      rewrite first_index_app_notIn by assumption.
      pose proof (first_index_lt _ _ Ha). lia.
Qed.

(** The scan of line 187 keeps the later of two keys unless the earlier
    has strictly more samples: over keys sorted by [R] it ends on the
    [R]-last key of maximal count. *)
Lemma reduce_scan_last_max (get : GestureType -> option nat)
    (c : GestureType -> nat) (R : GestureType -> GestureType -> Prop) :
  (forall x y z, R x y -> R y z -> R x z) ->
  forall l a,
    (forall x, In x (a :: l) -> get x = Some (c x)) ->
    StronglySorted R (a :: l) ->
    let r := fold_left
               (fun a b => if count_gtb (get a) (get b) then a else b) l a in
    In r (a :: l)
    /\ (forall x, In x (a :: l) -> (c x <= c r)%nat)
    /\ (forall x, In x (a :: l) -> c x = c r -> x = r \/ R x r).
Proof.
  intros Rtrans l. induction l as [|b t IH]; intros a Hget Hs; cbn zeta.
  - simpl. split; [left; reflexivity|].
    split; intros x [<-|[]]; [lia|left; reflexivity].
  - cbn [fold_left].
    rewrite (Hget a) by (left; reflexivity).
    rewrite (Hget b) by (right; left; reflexivity).
    cbn [count_gtb].
    inversion Hs as [|? ? Hs' Hall]; subst.
    inversion Hs' as [|? ? Hs'' Hall']; subst.
    inversion Hall as [|? ? Rab Hall'']; subst.
    destruct (Nat.ltb_spec (c b) (c a)) as [Hlt|Hle].
    + destruct (IH a) as (Hin & Hmax & Htie).
      { intros x [<-|Hx]; apply Hget; [left|right; right]; auto. }
      { constructor; assumption. }
      split; [destruct Hin as [<-|Hin]; [left|right; right]; auto|].
      pose proof (Hmax a (or_introl eq_refl)) as Ha.
      split.
      * intros x [<-|[<-|Hx]]; [assumption|lia|apply Hmax; right; assumption].
      * intros x [<-|[<-|Hx]] Hc;
          [apply Htie; [left; reflexivity|assumption]
          |lia
          |apply Htie; [right; assumption|assumption]].
    + destruct (IH b) as (Hin & Hmax & Htie).
      { intros x Hx. apply Hget. right. assumption. }
      { assumption. }
      split; [right; assumption|].
      pose proof (Hmax b (or_introl eq_refl)) as Hb.
      split.
      * intros x [<-|Hx]; [lia|apply Hmax; assumption].
      * intros x [<-|Hx] Hc; [|apply Htie; assumption].
        right. destruct (Htie b (or_introl eq_refl)) as [<-|Rbr];
          [lia|assumption|eapply Rtrans; eassumption].
Qed.

(** The stable gesture of a window that is not empty: a gesture of maximal
    count and, among those, the one whose first sample comes last. *)
Lemma stableGesture_spec (w : list GestureType) :
  w <> [] ->
  exists s, stableGesture w = Some s /\ plurality w s /\ latest_of_ties w s.
Proof.
  intros Hne. unfold stableGesture.
  pose proof (countGestures_keys_sorted w) as Hs.
  pose proof (countGestures_keys_In w) as Hin.
  destruct (obj_keys (countGestures w)) as [|a l] eqn:Hk.
  - destruct w as [|g w]; [congruence|].
    exfalso. apply (proj2 (Hin g)). left. reflexivity.
  - cbn [reduce1].
    assert (Htr : forall x y z : GestureType,
               (first_index x w < first_index y w)%nat ->
               (first_index y w < first_index z w)%nat ->
               (first_index x w < first_index z w)%nat) by (intros; lia).
    destruct (@reduce_scan_last_max
                (obj_get GestureType_beq (countGestures w)) (count w)
                (fun a b => (first_index a w < first_index b w)%nat)
                Htr l a) as (Hr & Hmax & Htie).
    + intros x Hx. rewrite countGestures_get.
      apply Hin, count_pos_In in Hx. destruct (count w x); [lia|reflexivity].
    + exact Hs.
    + eexists. split; [reflexivity|].
      set (r := fold_left _ l a) in *.
      assert (Hrw : In r w) by (apply Hin; exact Hr).
      split; [split; [exact Hrw|]|].
      * intros g. destruct (in_dec GestureType_eq_dec g w) as [Hg|Hg].
        -- apply Hmax, Hin, Hg.
        -- apply count_occ_not_In with (eq_dec := GestureType_eq_dec) in Hg.
           unfold count at 1. rewrite Hg. lia.
      * intros g Hgr Hc.
        assert (Hg : In g w).
        { apply count_pos_In. rewrite Hc. apply count_pos_In, Hrw. }
        destruct (Htie g (proj2 (Hin g) Hg) Hc); [congruence|assumption].
Qed.

(** *** The window *)

Lemma pushGesture_length (h : list GestureType) (g : GestureType) :
  length (pushGesture h g) =
  if Nat.leb 8 (length h) then length h else S (length h).
Proof.
  unfold pushGesture.
  assert (Hl : length (h ++ [g]) = S (length h))
    by (rewrite length_app; simpl; lia).
  rewrite Hl.
  destruct (Nat.ltb_spec 8 (S (length h))); destruct (Nat.leb_spec 8 (length h));
    try lia.
  destruct (h ++ [g]); simpl in *; lia.
Qed.

Lemma pushGesture_bound (h : list GestureType) (g : GestureType) :
  (length h <= 8)%nat -> (length (pushGesture h g) <= 8)%nat.
Proof.
  intros Hh. rewrite pushGesture_length.
  destruct (Nat.leb_spec 8 (length h)); lia.
Qed.

Lemma pushGesture_nonempty (h : list GestureType) (g : GestureType) :
  pushGesture h g <> [].
Proof.
  intros He. apply (f_equal (@length _)) in He.
  rewrite pushGesture_length in He.
  destruct (Nat.leb_spec 8 (length h)); simpl in He; lia.
Qed.

Lemma tl_skipn {A} (k : nat) (l : list A) : tl (skipn k l) = skipn (S k) l.
Proof.
  revert l. induction k as [|k IH]; intros [|x l]; try reflexivity.
  exact (IH l).
Qed.

Lemma pushGesture_window (samples : list GestureType) :
  fold_left pushGesture samples [] =
  skipn (length samples - 8) samples.
Proof.
  induction samples as [|x s IH] using rev_ind.
  - reflexivity.
  - rewrite fold_left_app. cbn [fold_left]. rewrite IH.
    unfold pushGesture. rewrite !length_app, length_skipn. cbn [length].
    destruct (Nat.ltb_spec 8 (length s - (length s - 8) + 1)) as [Hlt|Hge].
    + replace (length s + 1 - 8)%nat with (S (length s - 8)) by lia.
      rewrite <- tl_skipn, skipn_app.
      replace (length s - 8 - length s)%nat with 0%nat by lia.
      reflexivity.
    + replace (length s + 1 - 8)%nat with 0%nat by lia.
      replace (length s - 8)%nat with 0%nat by lia.
      reflexivity.
Qed.

End Stabilizer.

(** ** Pipeline Driver *)

Section Driver.
Context {num : Type} `{JSNumber num}.

Lemma detectedGesture_total (hand : list (Landmark.t num)) :
  length hand = 21%nat ->
  exists detected wrist,
    detectedGesture hand = Some detected /\ elem hand 0 = Some wrist.
Proof.
  intros Hlen.
  do 21 (destruct hand as [|? hand]; [discriminate Hlen|]).
  unfold detectedGesture. cbn [elem nth_error]. eauto.
Qed.

Lemma onResults_absent (r : Refs num) (m : AppMode) (now : Z) :
  onResults r m [] now =
  Some (r, [UpdateHandData (HandData.some (Some NONE) None None)]).
Proof. reflexivity. Qed.

(** What a tick with a hand leaves behind when it does not throw. *)
Lemma onResults_inv (r : Refs num) (m : AppMode)
    (hand : list (Landmark.t num)) rest (now : Z) r' actions :
  onResults r m (hand :: rest) now = Some (r', actions) ->
  exists detected wrist stable,
    detectedGesture hand = Some detected
    /\ elem hand 0 = Some wrist
    /\ gestureHistory r' = pushGesture (gestureHistory r) detected
    /\ stableGesture (gestureHistory r') = Some stable
    /\ (smoothedX r', smoothedY r') =
       smoothCursor (smoothedX r) (smoothedY r) wrist
    /\ lastVideoTime r' = lastVideoTime r
    /\ lastGestureTime r' =
       match modeTransition stable m now (lastGestureTime r) with
       | Some _ => now
       | None => lastGestureTime r
       end
    /\ actions =
       match modeTransition stable m now (lastGestureTime r) with
       | Some target => [SetMode target]
       | None => []
       end
       ++ [UpdateHandData
             (HandData.some (Some stable) (Some (smoothedX r'))
                            (Some (smoothedY r')))].
Proof.
  unfold onResults.
  destruct (detectedGesture hand) as [detected|]; [|discriminate].
  destruct (elem hand 0) as [wrist|]; [|discriminate].
  destruct (stableGesture (pushGesture (gestureHistory r) detected))
    as [stable|] eqn:Hst; [|discriminate].
  destruct (smoothCursor (smoothedX r) (smoothedY r) wrist) as [sx sy] eqn:Hsm.
  intros [= <- <-]. exists detected, wrist, stable. cbn.
  repeat split; try reflexivity; [exact Hst|symmetry; exact Hsm].
Qed.

(** A tick with a well-formed hand does not throw. *)
Lemma onResults_total (r : Refs num) (m : AppMode)
    (hand : list (Landmark.t num)) rest (now : Z) :
  length hand = 21%nat ->
  exists r' actions, onResults r m (hand :: rest) now = Some (r', actions).
Proof.
  intros Hlen.
  destruct (detectedGesture_total hand Hlen) as (detected & wrist & Hd & Hw).
  destruct (stableGesture_spec
              (pushGesture_nonempty (gestureHistory r) detected))
    as (stable & Hst & _).
  unfold onResults. rewrite Hd, Hw, Hst.
  destruct (smoothCursor (smoothedX r) (smoothedY r) wrist). eauto.
Qed.

Lemma predictWebcam_processed (r : Refs num) (s : AppState num) (t : Tick num) :
  processed r t = true ->
  predictWebcam r s t =
  match onResults (setLastVideoTime r (currentTime t)) (mode s)
                  (landmarks t) (now t) with
  | Some (r', actions) => (r', fold_left dispatch actions s, Scheduled)
  | None => (setLastVideoTime r (currentTime t), s, Threw)
  end.
Proof.
  unfold processed, predictWebcam. intros Hp.
  apply andb_prop in Hp as [Hp Hctx]. apply andb_prop in Hp as [Hp Hneq].
  apply andb_prop in Hp as [Hatt Hdim].
  rewrite Hatt, Hneq, Hctx. cbn [negb].
  destruct (Z.eqb (videoWidth t) 0 || Z.eqb (videoHeight t) 0);
    [discriminate|reflexivity].
Qed.

Lemma predictWebcam_skipped (r : Refs num) (s : AppState num) (t : Tick num) :
  processed r t = false ->
  snd (fst (predictWebcam r s t)) = s
  /\ gestureHistory (fst (fst (predictWebcam r s t))) = gestureHistory r
  /\ smoothedX (fst (fst (predictWebcam r s t))) = smoothedX r
  /\ smoothedY (fst (fst (predictWebcam r s t))) = smoothedY r
  /\ lastGestureTime (fst (fst (predictWebcam r s t))) = lastGestureTime r.
Proof.
  unfold processed, predictWebcam.
  destruct (attached t); cbn [negb andb]; [|auto].
  destruct (Z.eqb (videoWidth t) 0 || Z.eqb (videoHeight t) 0);
    cbn [negb andb]; [auto|].
  destruct (neqb (currentTime t) (lastVideoTime r)); cbn [andb]; [|auto].
  destruct (ctx t); [discriminate|]. auto.
Qed.

End Driver.

(** ** The claims on the classifier's samples *)

Lemma detectedGesture_first_match_witness :
  length Sample.victoryHand = 21%nat
  /\ detectedGesture Sample.victoryHand =
     Some (spec_classify
             (distance2d Sample.mcp Sample.wrist)
             (distance2d Sample.thumbTip Sample.wrist)
             (distance2d Sample.thumbTip (Sample.point (45#100) (55#100)))
             (distance2d (Sample.point (45#100) (55#100)) Sample.wrist)
             (distance2d (Sample.point (55#100) (55#100)) Sample.wrist)
             (distance2d (Sample.point (55#100) (75#100)) Sample.wrist)
             (distance2d (Sample.point (6#10) (8#10)) Sample.wrist))
  /\ detectedGesture Sample.victoryHand = Some VICTORY.
Proof.
  split; [reflexivity|]. split.
  - apply (@detectedGesture_first_match float _ Sample.victoryHand);
      reflexivity.
  - vm_compute. reflexivity.
Defined.

Example detectedGesture_fist : detectedGesture Sample.fistHand = Some CLOSED_FIST.
Proof. vm_compute. reflexivity. Qed.

(** ** The claims on the stabilizer *)

Section StabilizerClaims.
Context {num : Type} `{JSNumber num}.

(** C2, as amended.  After every push the stable gesture exists, has a
    maximal count in the window and, among the gestures tied at that count,
    is the one whose first sample comes latest in the window; eight pushes
    of [G] yield [G], and a window [A,A,A,A,A,B,B,B] yields [A]. *)
Theorem stableGesture_latest_plurality :
  (forall history g,
      exists s, stableGesture (pushGesture history g) = Some s
                /\ plurality (pushGesture history g) s
                /\ latest_of_ties (pushGesture history g) s)
  /\ (forall samples G,
         stableGesture (fold_left pushGesture (samples ++ repeat G 8) [])
         = Some G)
  /\ (forall samples A B,
         stableGesture
           (fold_left pushGesture (samples ++ [A; A; A; A; A; B; B; B]) [])
         = Some A).
Proof.
  split; [|split].
  - intros history g. apply stableGesture_spec, pushGesture_nonempty.
  - intros samples G. rewrite pushGesture_window, length_app, repeat_length.
    replace (length samples + 8 - 8)%nat with (length samples + 0)%nat by lia.
    rewrite skipn_app, Nat.add_0_r, skipn_all, Nat.sub_diag.
    destruct G; reflexivity.
  - intros samples A B. rewrite pushGesture_window, length_app.
    cbn [length].
    replace (length samples + 8 - 8)%nat with (length samples + 0)%nat by lia.
    rewrite skipn_app, Nat.add_0_r, skipn_all, Nat.sub_diag.
    destruct A, B; reflexivity.
Qed.

(** C9.  A push leaves the length alone when 8 samples are held and adds
    one otherwise; the history built from the empty one holds at most 8
    samples, the 8 most recent ones; and it holds at most 8 samples after
    every sequence of events of the program. *)
Theorem gestureHistory_at_most_8 :
  (forall history g,
      length (pushGesture history g) =
      if Nat.leb 8 (length history) then length history
      else S (length history))
  /\ (forall samples,
         (length (fold_left pushGesture samples []) <= 8)%nat
         /\ fold_left pushGesture samples [] =
            skipn (length samples - 8) samples)
  /\ (forall events : list (Event num),
         (length (gestureHistory (refs (run events))) <= 8)%nat).
Proof.
  split; [exact pushGesture_length|]. split.
  - intros samples. split; [|apply pushGesture_window].
    rewrite pushGesture_window, length_skipn. lia.
  - intros events. unfold run.
    assert (Hinit : (length (gestureHistory (refs (@initialProgram num _))) <= 8)%nat)
      by (simpl; lia).
    revert Hinit. generalize (@initialProgram num _).
    induction events as [|e events IH]; intros p Hp; [exact Hp|].
    cbn [fold_left]. apply IH.
    destruct e as [t| | | | | |]; cbn [step refs]; try exact Hp.
    destruct (processed (refs p) t) eqn:Hproc.
    + rewrite (predictWebcam_processed _ (store p) _ Hproc).
      destruct (landmarks t) as [|hand rest].
      * rewrite onResults_absent. exact Hp.
      * destruct (onResults _ _ (hand :: rest) _) as [[r' actions]|] eqn:Hon;
          [|exact Hp].
        apply onResults_inv in Hon
          as (detected & wrist & stable & _ & _ & Hh & _).
        cbn [refs]. rewrite Hh. apply pushGesture_bound. exact Hp.
    + pose proof (predictWebcam_skipped (refs p) (store p) t Hproc)
        as (_ & Hh & _).
      destruct (predictWebcam (refs p) (store p) t) as [[r' s'] o].
      cbn [refs]. cbn [fst] in Hh. rewrite Hh. exact Hp.
Qed.

End StabilizerClaims.

(** C2, as stated, fails: in the window [NONE, PINCH] both gestures have
    one sample and NONE is seen first, yet the stable gesture is PINCH. *)
Lemma stableGesture_not_earliest_of_ties :
  stableGesture (pushGesture (pushGesture [] NONE) PINCH) = Some PINCH
  /\ ~ earliest_of_ties (pushGesture (pushGesture [] NONE) PINCH) PINCH.
Proof.
  split; [reflexivity|].
  intros Hclaim.
  specialize (Hclaim NONE ltac:(discriminate) eq_refl).
  simpl in Hclaim. lia.
Qed.

(** Open hand and fist in turn for 8 frames: a 4/4 tie that the fist, seen
    second, wins. *)
Example stableGesture_alternating :
  stableGesture
    (fold_left pushGesture
       [OPEN_HAND; CLOSED_FIST; OPEN_HAND; CLOSED_FIST;
        OPEN_HAND; CLOSED_FIST; OPEN_HAND; CLOSED_FIST] [])
  = Some CLOSED_FIST.
Proof. reflexivity. Qed.

(** ** Mode Transition Controller *)

Lemma modeTransition_table (stable : GestureType) (m : AppMode) (now last : Z) :
  modeTransition stable m now last =
  if Z.ltb 600 (now - last) then
    match transitionTable stable with
    | Some target => if AppMode_beq target m then None else Some target
    | None => None
    end
  else None.
Proof.
  unfold modeTransition.
  destruct (Z.ltb 600 (now - last)); [|reflexivity].
  destruct stable, m; reflexivity.
Qed.

Lemma modeTransition_commits (stable : GestureType) (m : AppMode)
    (now last : Z) (target : AppMode) :
  modeTransition stable m now last = Some target
  <-> commits stable m now last target.
Proof.
  rewrite modeTransition_table. unfold commits.
  destruct (Z.ltb_spec 600 (now - last)) as [Hlt|Hge].
  - destruct (transitionTable stable) as [t|].
    + destruct (AppMode_beq_spec t m) as [->|Hne].
      * split; [discriminate|]. intros (_ & [= ->] & Hn). congruence.
      * split.
        -- intros [= ->]. repeat split; [lia|assumption].
        -- intros (_ & [= ->] & _). reflexivity.
    + split; [discriminate|]. intros (_ & Hd & _). discriminate.
  - split; [discriminate|]. intros (Hgt & _). lia.
Qed.

Section ControllerClaims.
Context {num : Type} `{JSNumber num}.


End ControllerClaims.


(** A fist held while the mode is TEXT, first tick: the mode becomes TREE. *)
Example fist_in_TEXT_commits_TREE :
  option_map (fun ra => mode (fold_left dispatch (snd ra)
                                        (setMode TEXT initialState)))
             (onResults initialRefs TEXT (Sample.fistHand :: []) 1000)
  = Some TREE.
Proof. vm_compute. reflexivity. Qed.

(** ** The claims on the driver and on the store *)

Section DriverClaims.
Context {num : Type} `{JSNumber num}.

(** C4.  On a processed tick with no hand, whatever the gesture history
    holds, the published gesture is NONE, the published cursor and the
    smoothed cursor are those of before the tick (and so are the history,
    the mode and the debounce time). *)
Theorem absent_hand_publishes_NONE (r : Refs num) (s : AppState num)
    (t : Tick num) :
  processed r t = true -> landmarks t = [] ->
  exists r' s',
    predictWebcam r s t = (r', s', Scheduled)
    /\ HandData.gesture (handData s') = NONE
    /\ HandData.x (handData s') = HandData.x (handData s)
    /\ HandData.y (handData s') = HandData.y (handData s)
    /\ smoothedX r' = smoothedX r
    /\ smoothedY r' = smoothedY r
    /\ gestureHistory r' = gestureHistory r
    /\ lastGestureTime r' = lastGestureTime r
    /\ mode s' = mode s.
Proof.
  intros Hproc Habs.
  rewrite (predictWebcam_processed r s t Hproc), Habs, onResults_absent.
  eexists _, _. split; [reflexivity|]. cbn. repeat split; reflexivity.
Qed.

(** C5, as amended.  On a processed tick with a hand of 21 landmarks the
    gesture detected on that hand is pushed onto the history; on a
    processed tick with no hand the history is left as it was. *)
Theorem history_pushed_only_with_hand (r : Refs num) (s : AppState num)
    (t : Tick num) :
  processed r t = true ->
  (landmarks t = [] ->
   gestureHistory (fst (fst (predictWebcam r s t))) = gestureHistory r)
  /\ (forall hand rest,
         landmarks t = hand :: rest -> length hand = 21%nat ->
         exists detected,
           detectedGesture hand = Some detected
           /\ gestureHistory (fst (fst (predictWebcam r s t))) =
              pushGesture (gestureHistory r) detected).
Proof.
  intros Hproc. rewrite (predictWebcam_processed r s t Hproc). split.
  - intros ->. rewrite onResults_absent. reflexivity.
  - intros hand rest -> Hlen.
    destruct (onResults_total (setLastVideoTime r (currentTime t)) (mode s)
                hand rest (now t) Hlen) as (r' & actions & Hon).
    rewrite Hon. apply onResults_inv in Hon
      as (detected & wrist & stable & Hd & _ & Hh & _).
    exists detected. split; [exact Hd|exact Hh].
Qed.

(** C6, as amended.  An event that changes the mode is a tick on which the
    Mode Transition Controller commits a transition, or a click on one of the
    three mode buttons of [App], which sets the mode of the button. *)
Theorem mode_changed_by_controller_or_button (p : Program num)
    (e : Event num) :
  mode (store (step p e)) <> mode (store p) ->
  controller_commit p e \/ button_click e (mode (store (step p e))).
Proof.
  intros Hch. destruct e as [t| | | | | |]; cbn in Hch |- *;
    try (exfalso; apply Hch; reflexivity);
    try (right; unfold button_click; tauto).
  left. unfold controller_commit. cbn [step].
  destruct (processed (refs p) t) eqn:Hproc.
  - rewrite (predictWebcam_processed _ (store p) _ Hproc) in Hch |- *.
    destruct (landmarks t) as [|hand rest] eqn:Hl.
    + rewrite onResults_absent in Hch. exfalso. apply Hch. reflexivity.
    + destruct (onResults _ _ (hand :: rest) _) as [[r' actions]|] eqn:Hon;
        [|exfalso; apply Hch; reflexivity].
      apply onResults_inv in Hon
        as (detected & wrist & stable & _ & _ & _ & Hst & _ & _ & _ & Hact).
      cbn [store refs] in Hch |- *. rewrite Hact in Hch |- *.
      destruct (modeTransition stable (mode (store p)) (now t)
                  (lastGestureTime (setLastVideoTime (refs p) (currentTime t))))
        as [target|] eqn:Hm; [|exfalso; apply Hch; reflexivity].
      exists t, hand, rest, stable, target.
      repeat split; try assumption; try reflexivity;
        apply modeTransition_commits in Hm; apply Hm.
  - pose proof (predictWebcam_skipped (refs p) (store p) t Hproc) as (Hs & _).
    destruct (predictWebcam (refs p) (store p) t) as [[r' s'] o].
    cbn in Hs, Hch. subst s'. exfalso. apply Hch. reflexivity.
Qed.

End DriverClaims.

Lemma absent_hand_publishes_NONE_witness :
  processed initialRefs (Sample.tick (1#10) [] 1000) = true
  /\ exists r' s',
       predictWebcam initialRefs initialState (Sample.tick (1#10) [] 1000)
       = (r', s', Scheduled)
       /\ HandData.gesture (handData s') = NONE
       /\ HandData.x (handData s') = HandData.x (handData initialState)
       /\ HandData.y (handData s') = HandData.y (handData initialState)
       /\ smoothedX r' = smoothedX initialRefs
       /\ smoothedY r' = smoothedY initialRefs
       /\ gestureHistory r' = gestureHistory initialRefs
       /\ lastGestureTime r' = lastGestureTime initialRefs
       /\ mode s' = mode initialState.
Proof.
  split; [vm_compute; reflexivity|].
  apply (@absent_hand_publishes_NONE float _ initialRefs initialState
           (Sample.tick (1#10) [] 1000));
    [vm_compute; reflexivity|reflexivity].
Defined.

(** Eight ticks with a fist publish CLOSED_FIST; the first tick with no
    hand after them publishes NONE, while the history still holds the eight
    fists. *)
Example absent_after_fist :
  HandData.gesture
    (handData
       (store (run (map (fun k => Frame (Sample.tick (k # 10)
                                           [Sample.fistHand] (1000 * k)))
                        [1; 2; 3; 4; 5; 6; 7; 8]%Z))))
  = CLOSED_FIST
  /\ HandData.gesture
       (handData
          (store (run (map (fun k => Frame (Sample.tick (k # 10)
                                              [Sample.fistHand] (1000 * k)))
                           [1; 2; 3; 4; 5; 6; 7; 8]%Z
                       ++ [Frame (Sample.tick (9 # 10) [] 9000)]))))
     = NONE.
Proof. vm_compute. split; reflexivity. Qed.

(** C5, as stated, fails: a processed tick with no hand pushes nothing, so
    the history is not the one with a NONE sample more; and after eight
    ticks with a fist and three with no hand the window still holds eight
    fists and no NONE. *)
Lemma absent_hand_pushes_nothing :
  processed initialRefs (Sample.tick (1#10) [] 1000) = true
  /\ landmarks (Sample.tick (1#10) [] 1000) = []
  /\ gestureHistory
       (fst (fst (predictWebcam initialRefs initialState
                                (Sample.tick (1#10) [] 1000))))
     <> pushGesture (gestureHistory initialRefs) NONE
  /\ gestureHistory
       (refs (run (map (fun k => Frame (Sample.tick (k # 10)
                                          [Sample.fistHand] (1000 * k)))
                       [1; 2; 3; 4; 5; 6; 7; 8]%Z
                   ++ map (fun k => Frame (Sample.tick (k # 10) []
                                             (1000 * k)))
                          [9; 10; 11]%Z)))
     = repeat CLOSED_FIST 8.
Proof.
  split; [vm_compute; reflexivity|]. split; [reflexivity|]. split.
  - vm_compute. discriminate.
  - vm_compute. reflexivity.
Qed.

Lemma history_pushed_only_with_hand_witness :
  processed initialRefs (Sample.tick (1#10) [Sample.fistHand] 1000) = true
  /\ (landmarks (Sample.tick (1#10) [Sample.fistHand] 1000) = [] ->
      gestureHistory
        (fst (fst (predictWebcam initialRefs initialState
                     (Sample.tick (1#10) [Sample.fistHand] 1000))))
      = gestureHistory initialRefs)
  /\ (forall hand rest,
         landmarks (Sample.tick (1#10) [Sample.fistHand] 1000) = hand :: rest ->
         length hand = 21%nat ->
         exists detected,
           detectedGesture hand = Some detected
           /\ gestureHistory
                (fst (fst (predictWebcam initialRefs initialState
                             (Sample.tick (1#10) [Sample.fistHand] 1000))))
              = pushGesture (gestureHistory initialRefs) detected).
Proof.
  split; [vm_compute; reflexivity|].
  apply (@history_pushed_only_with_hand float _ initialRefs initialState
           (Sample.tick (1#10) [Sample.fistHand] 1000)).
  vm_compute. reflexivity.
Defined.

(** C6, as stated, fails: a click on the Text button changes the mode from
    TREE to TEXT, and a click is no committed transition of the
    controller. *)
Lemma button_changes_mode :
  mode (store (step (@initialProgram float _) ClickText)) = TEXT
  /\ mode (store (@initialProgram float _)) = TREE
  /\ ~ controller_commit (@initialProgram float _) ClickText.
Proof.
  split; [reflexivity|]. split; [reflexivity|].
  intros (t & hand & rest & stable & target & He & _). discriminate He.
Qed.

Lemma mode_changed_by_controller_or_button_witness :
  mode (store (step (@initialProgram float _) ClickText))
  <> mode (store (@initialProgram float _))
  /\ (controller_commit (@initialProgram float _) ClickText
      \/ button_click (@ClickText float)
           (mode (store (step (@initialProgram float _) ClickText)))).
Proof.
  split; [discriminate|].
  apply (@mode_changed_by_controller_or_button float _
           initialProgram ClickText).
  discriminate.
Defined.

(** ** Exact arithmetic *)

Open Scope R_scope.

Lemma ltbR_spec (a b : R) : reflect (a < b) (Exact.ltbR a b).
Proof. unfold Exact.ltbR. destruct (Rlt_dec a b); constructor; assumption. Qed.

Lemma Q2R_1 : Q2R 1 = 1.
Proof. unfold Q2R. cbn. field. Qed.

Lemma Q2R_dec (n : Z) (d : positive) : Q2R (n # d) = IZR n / IZR (Zpos d).
Proof. reflexivity. Qed.

Lemma lerp_exact (a b t : R) : lerp a b t = a * (1 - t) + b * t.
Proof. unfold lerp. cbn -[Q2R]. rewrite Q2R_1. reflexivity. Qed.

Lemma hypotR_nonneg (a b : R) : 0 <= Exact.hypotR a b.
Proof. apply sqrt_pos. Qed.

Lemma hypotR_scale (k a b : R) :
  0 <= k -> Exact.hypotR (k * a) (k * b) = k * Exact.hypotR a b.
Proof.
  intros Hk. unfold Exact.hypotR.
  replace (k * a * (k * a) + k * b * (k * b)) with (k * k * (a * a + b * b))
    by ring.
  rewrite sqrt_mult_alt by nra.
  rewrite sqrt_square by assumption. reflexivity.
Qed.

(** The smoother in exact arithmetic: a lerp of both coordinates towards the
    raw position, with factor 3/10 when the raw position is more than 5/100
    away and 1/10 otherwise. *)
Lemma smoothCursor_exact (sx sy : R) (wrist : Landmark.t R) :
  smoothCursor sx sy wrist =
  let t := if Rlt_dec (5 / 100) (dist (rawPosition wrist) (sx, sy))
           then 3 / 10 else 1 / 10 in
  (sx * (1 - t) + fst (rawPosition wrist) * t,
   sy * (1 - t) + snd (rawPosition wrist) * t).
Proof.
  unfold smoothCursor, rawPosition, dist, gtb, lerp. cbn -[Q2R].
  rewrite Q2R_1, !Q2R_dec. unfold Exact.ltbR.
  destruct (Rlt_dec (5 / 100) _); reflexivity.
Qed.

Lemma smoothCursor_unit_square (sx sy : R) (wrist : Landmark.t R) :
  unit_interval sx -> unit_interval sy -> raw_in_unit_square wrist ->
  unit_interval (fst (smoothCursor sx sy wrist))
  /\ unit_interval (snd (smoothCursor sx sy wrist)).
Proof.
  unfold raw_in_unit_square, unit_interval. intros Hx Hy [Hrx Hry].
  rewrite smoothCursor_exact. cbn zeta.
  destruct (Rlt_dec (5 / 100) _); cbn [fst snd]; split; lra.
Qed.



(** The same bound on the program: whatever the events, as long as the
    wrists of the frames have their raw positions in the unit square. *)
Lemma program_cursor_in_unit_square (events : list (Event R)) :
  Forall feeds_unit_square events ->
  unit_interval (smoothedX (refs (run events)))
  /\ unit_interval (smoothedY (refs (run events))).
Proof.
  unfold run.
  assert (Hinit : unit_interval (smoothedX (refs (@initialProgram R _)))
                  /\ unit_interval (smoothedY (refs (@initialProgram R _)))).
  { cbn -[Q2R]. rewrite Q2R_dec. unfold unit_interval. split; lra. }
  revert Hinit. generalize (@initialProgram R _).
  induction events as [|e events IH]; intros p Hp Hall; [exact Hp|].
  inversion Hall as [|? ? He Hes]; subst.
  cbn [fold_left]. apply IH; [|exact Hes].
  destruct e as [t| | | | | |]; cbn [step refs]; try exact Hp.
  destruct (processed (refs p) t) eqn:Hproc.
  - rewrite (predictWebcam_processed _ (store p) _ Hproc).
    cbn [feeds_unit_square] in He.
    destruct (landmarks t) as [|hand rest].
    + rewrite onResults_absent. exact Hp.
    + destruct (onResults _ _ (hand :: rest) _) as [[r' actions]|] eqn:Hon;
        [|exact Hp].
      apply onResults_inv in Hon
        as (detected & wrist & stable & _ & Hw & _ & _ & Hsm & _).
      rewrite Hw in He. cbn [refs].
      destruct Hp as [Hx Hy].
      pose proof (smoothCursor_unit_square Hx Hy He) as Hsq.
      cbn [setLastVideoTime smoothedX smoothedY] in Hsm.
      rewrite <- Hsm in Hsq. exact Hsq.
  - pose proof (predictWebcam_skipped (refs p) (store p) t Hproc)
      as (_ & _ & Hx & Hy & _).
    destruct (predictWebcam (refs p) (store p) t) as [[r' s'] o].
    cbn [refs]. cbn [fst] in Hx, Hy. rewrite Hx, Hy. exact Hp.
Qed.

Lemma smoothCursor_fixed (sx sy : R) (wrist : Landmark.t R) :
  rawPosition wrist = (sx, sy) -> smoothCursor sx sy wrist = (sx, sy).
Proof.
  intros Hraw. rewrite smoothCursor_exact, Hraw. cbn [fst snd].
  destruct (Rlt_dec (5 / 100) _); cbn zeta; f_equal; field.
Qed.

Lemma smoothCursor_dist (sx sy : R) (wrist : Landmark.t R) :
  dist (rawPosition wrist) (smoothCursor sx sy wrist) =
  (if Rlt_dec (5 / 100) (dist (rawPosition wrist) (sx, sy))
   then 7 / 10 else 9 / 10)
  * dist (rawPosition wrist) (sx, sy).
Proof.
  rewrite smoothCursor_exact. cbn zeta.
  destruct (rawPosition wrist) as [rx ry].
  destruct (Rlt_dec (5 / 100) _); unfold dist; cbn [fst snd].
  - rewrite <- hypotR_scale by lra. f_equal; field.
  - rewrite <- hypotR_scale by lra. f_equal; field.
Qed.

Lemma smoothAll_repeat_S (wrist : Landmark.t R) (c : R * R) (n : nat) :
  smoothAll (repeat wrist (S n)) c =
  smoothCursor (fst (smoothAll (repeat wrist n) c))
               (snd (smoothAll (repeat wrist n) c)) wrist.
Proof.
  unfold smoothAll. cbn [repeat]. rewrite repeat_cons, fold_left_app.
  reflexivity.
Qed.

Lemma dist_nonneg (p q : R * R) : 0 <= dist p q.
Proof. apply hypotR_nonneg. Qed.

Lemma smoothAll_dist_step (wrist : Landmark.t R) (c : R * R) (n : nat) :
  dist (rawPosition wrist) (smoothAll (repeat wrist (S n)) c)
  <= 9 / 10 * dist (rawPosition wrist) (smoothAll (repeat wrist n) c).
Proof.
  rewrite smoothAll_repeat_S, smoothCursor_dist.
  set (cn := smoothAll (repeat wrist n) c).
  replace (fst cn, snd cn) with cn by (destruct cn; reflexivity).
  pose proof (dist_nonneg (rawPosition wrist) cn).
  destruct (Rlt_dec (5 / 100) _); nra.
Qed.

Lemma smoothAll_dist_pow (wrist : Landmark.t R) (c : R * R) (n : nat) :
  dist (rawPosition wrist) (smoothAll (repeat wrist n) c)
  <= (9 / 10) ^ n * dist (rawPosition wrist) c.
Proof.
  induction n as [|n IH].
  - cbn [repeat]. unfold smoothAll. cbn [fold_left pow]. lra.
  - pose proof (smoothAll_dist_step wrist c n). cbn [pow]. nra.
Qed.

(** C8, as amended.  In exact arithmetic: an update with the raw position
    equal to the smoothed one leaves the smoothed position unchanged; an
    update multiplies the distance to the raw position by 7/10 when that
    distance exceeds 5/100 and by 9/10 otherwise; so under a constant raw
    position the distance never grows and tends to 0. *)
Theorem smoothCursor_contracts :
  (forall sx sy (wrist : Landmark.t R),
      rawPosition wrist = (sx, sy) -> smoothCursor sx sy wrist = (sx, sy))
  /\ (forall sx sy (wrist : Landmark.t R),
         dist (rawPosition wrist) (smoothCursor sx sy wrist) =
         (if Rlt_dec (5 / 100) (dist (rawPosition wrist) (sx, sy))
          then 7 / 10 else 9 / 10)
         * dist (rawPosition wrist) (sx, sy))
  /\ (forall (wrist : Landmark.t R) c n,
         dist (rawPosition wrist) (smoothAll (repeat wrist (S n)) c)
         <= dist (rawPosition wrist) (smoothAll (repeat wrist n) c))
  /\ (forall (wrist : Landmark.t R) c eps,
         0 < eps ->
         exists N, forall n,
             (N <= n)%nat ->
             dist (rawPosition wrist) (smoothAll (repeat wrist n) c) < eps).
Proof.
  split; [exact smoothCursor_fixed|]. split; [exact smoothCursor_dist|]. split.
  - intros wrist c n.
    pose proof (smoothAll_dist_step wrist c n).
    pose proof (dist_nonneg (rawPosition wrist) (smoothAll (repeat wrist n) c)).
    lra.
  - intros wrist c eps Heps.
    pose proof (dist_nonneg (rawPosition wrist) c) as Hd.
    destruct (pow_lt_1_zero (9 / 10)) with (y := eps / (dist (rawPosition wrist) c + 1))
      as [N HN].
    + rewrite Rabs_pos_eq; lra.
    + apply Rdiv_lt_0_compat; lra.
    + exists N. intros n Hn. specialize (HN n Hn).
      rewrite Rabs_pos_eq in HN by (apply pow_le; lra).
      pose proof (smoothAll_dist_pow wrist c n) as Hp.
      eapply Rle_lt_trans; [exact Hp|].
      set (d := dist (rawPosition wrist) c) in *.
      assert (Hq : (9 / 10) ^ n * (d + 1) < eps).
      { apply Rmult_lt_reg_r with (r := / (d + 1)).
        - apply Rinv_0_lt_compat. lra.
        - rewrite Rmult_assoc, Rinv_r by lra. rewrite Rmult_1_r. exact HN. }
      assert (Hpow : 0 <= (9 / 10) ^ n) by (apply pow_le; lra).
      nra.
Qed.

Close Scope R_scope.

(** C8, as stated, fails in double arithmetic: with the smoothed cursor at
    (0.5, 0.3) and the wrist at (0.5, 0.3), the raw position equals the
    smoothed one and the update moves the smoothed [y] off 0.3. *)
Lemma smoothCursor_double_moves :
  rawPosition (Sample.point (5#10) (3#10)) = (lit (5#10), lit (3#10))
  /\ smoothCursor (lit (5#10)) (lit (3#10)) (Sample.point (5#10) (3#10))
     <> (lit (5#10), lit (3#10)).
Proof.
  split; [vm_compute; reflexivity|].
  intros Heq.
  assert (Hy : PrimFloat.eqb
                 (snd (smoothCursor (lit (5#10)) (lit (3#10))
                                    (Sample.point (5#10) (3#10))))
                 (lit (3#10)) = true)
    by (rewrite Heq; vm_compute; reflexivity).
  vm_compute in Hy. discriminate Hy.
Qed.

(** ** HEART and VICTORY *)

Open Scope R_scope.

Lemma middle_not_down_and_up (handSize : R) (fingerDistances : list R) :
  0 <= handSize ->
  middleDown handSize fingerDistances && middleUp handSize fingerDistances
  = false.
Proof.
  intros Hh. unfold middleDown, middleUp, ltb_u, gtb_u, gtb.
  destruct (elem fingerDistances 1) as [d1|]; [|reflexivity].
  cbn -[Q2R]. rewrite !Q2R_dec.
  destruct (ltbR_spec d1 (handSize * (12 / 10))) as [Hdown|]; [|reflexivity].
  destruct (ltbR_spec (handSize * (14 / 10)) d1) as [Hup|]; [|reflexivity].
  exfalso. nra.
Qed.

Lemma love_victory_of_middle {num} `{JSNumber num} (handSize : num)
    (thumbTip wrist : Landmark.t num) (fingerDistances : list num) :
  middleDown handSize fingerDistances && middleUp handSize fingerDistances
  = false ->
  isLove handSize thumbTip wrist fingerDistances
  && isVictory handSize fingerDistances = false.
Proof.
  intros Hm. unfold isLove, isVictory.
  destruct (middleDown handSize fingerDistances);
    destruct (middleUp handSize fingerDistances);
    try discriminate Hm;
    rewrite ?andb_false_r, ?andb_false_l; reflexivity.
Qed.

(** C10.  In exact arithmetic and for a hand size that is not negative, the
    HEART test and the VICTORY test of the classifier are never both true:
    the first wants the middle fingertip closer than 1.2 hand sizes to the
    wrist, the second farther than 1.4. *)
Theorem heart_victory_exclusive (handSize : R)
    (thumbTip wrist : Landmark.t R) (fingerDistances : list R) :
  0 <= handSize ->
  isLove handSize thumbTip wrist fingerDistances
  && isVictory handSize fingerDistances = false.
Proof.
  intros Hh. apply love_victory_of_middle, middle_not_down_and_up, Hh.
Qed.

Lemma heart_victory_exclusive_witness :
  0 <= 1
  /\ isLove 1 (Landmark.make 0 1 0) (Landmark.make 0 0 0) [2; 1; 1; 2]
     && isVictory 1 [2; 1; 1; 2] = false.
Proof.
  split; [lra|].
  apply (@heart_victory_exclusive 1 (Landmark.make 0 1 0)
           (Landmark.make 0 0 0) [2; 1; 1; 2]).
  lra.
Defined.

(** On a frame the hand size is a distance, so no frame passes both tests. *)
Corollary no_frame_is_heart_and_victory
    (mcp wrist thumbTip : Landmark.t R) (fingerDistances : list R) :
  isLove (distance2d mcp wrist) thumbTip wrist fingerDistances
  && isVictory (distance2d mcp wrist) fingerDistances = false.
Proof.
  apply love_victory_of_middle, middle_not_down_and_up, hypotR_nonneg.
Qed.

Close Scope R_scope.

(** ** Double arithmetic on samples *)

(** The lerp of a value with itself is not always that value. *)
Example lerp_double_not_fixed :
  PrimFloat.eqb (lerp (lit (3#10)) (lit (3#10)) (lit (1#10))) (lit (3#10))
  = false.
Proof. vm_compute. reflexivity. Qed.

Example lerp_double_half :
  PrimFloat.eqb (lerp (lit (5#10)) (lit (5#10)) (lit (1#10))) (lit (5#10))
  = true.
Proof. vm_compute. reflexivity. Qed.

(** The corners of the unit square stay where they are. *)
Example lerp_double_corner :
  PrimFloat.eqb (lerp (lit 1) (lit 1) (lit (3#10))) (lit 1) = true
  /\ PrimFloat.eqb (lerp (lit 1) (lit 1) (lit (1#10))) (lit 1) = true
  /\ PrimFloat.eqb (lerp (lit 0) (lit 0) (lit (3#10))) (lit 0) = true.
Proof. vm_compute. repeat split. Qed.

(** ** Further properties of the detector *)

Section DetectorExtras.
Context {num : Type} `{JSNumber num}.

Lemma predictWebcam_lastVideoTime (r : Refs num) (s : AppState num)
    (t : Tick num) :
  attached t = true ->
  (Z.eqb (videoWidth t) 0 || Z.eqb (videoHeight t) 0) = false ->
  neqb (currentTime t) (lastVideoTime r) = true ->
  lastVideoTime (fst (fst (predictWebcam r s t))) = currentTime t.
Proof.
  intros Hatt Hdim Hneq. unfold predictWebcam.
  rewrite Hatt, Hdim, Hneq. cbn [negb].
  destruct (ctx t); [|reflexivity].
  destruct (landmarks t) as [|hand rest].
  - rewrite onResults_absent. reflexivity.
  - destruct (onResults _ _ (hand :: rest) _) as [[r' actions]|] eqn:Hon;
      [|reflexivity].
    apply onResults_inv in Hon
      as (detected & wrist & stable & _ & _ & _ & _ & _ & Hv & _).
    exact Hv.
Qed.

(** X1.  A video frame delivered twice is processed once: whatever the
    first call of [predictWebcam] did, a second call on the same tick
    leaves the refs and the store as the first left them.  The video time
    must differ from no number equal to it, which excludes NaN only. *)
Theorem predictWebcam_same_frame_once (r : Refs num) (s : AppState num)
    (t : Tick num) :
  neqb (currentTime t) (currentTime t) = false ->
  fst (predictWebcam (fst (fst (predictWebcam r s t)))
                     (snd (fst (predictWebcam r s t))) t)
  = fst (predictWebcam r s t).
Proof.
  intros Hsame.
  destruct (attached t) eqn:Hatt.
  2:{ unfold predictWebcam. rewrite Hatt. reflexivity. }
  destruct (Z.eqb (videoWidth t) 0 || Z.eqb (videoHeight t) 0) eqn:Hdim.
  { unfold predictWebcam. rewrite Hatt, Hdim. reflexivity. }
  destruct (neqb (currentTime t) (lastVideoTime r)) eqn:Hneq.
  - pose proof (predictWebcam_lastVideoTime r s t Hatt Hdim Hneq) as Hv.
    destruct (predictWebcam r s t) as [[r1 s1] o1]. cbn [fst snd] in *.
    unfold predictWebcam. rewrite Hatt, Hdim, Hv, Hsame. reflexivity.
  - unfold predictWebcam. rewrite Hatt, Hdim, Hneq. cbn.
    rewrite Hneq. reflexivity.
Qed.

Lemma length_lt_elem_None {A} (l : list A) (i : nat) :
  (length l <= i)%nat -> elem l i = None.
Proof. intros Hl. apply nth_error_None. exact Hl. Qed.

(** X2.  A hand with fewer than 21 landmarks makes a processed tick throw:
    the video time has been recorded, nothing else has changed (history,
    cursor, debounce time, store), and the next frame is not requested. *)
Theorem short_hand_throws (r : Refs num) (s : AppState num) (t : Tick num)
    (hand : list (Landmark.t num)) (rest : list (list (Landmark.t num))) :
  processed r t = true -> landmarks t = hand :: rest ->
  (length hand < 21)%nat ->
  predictWebcam r s t = (setLastVideoTime r (currentTime t), s, Threw).
Proof.
  intros Hproc Hl Hlen.
  rewrite (predictWebcam_processed r s t Hproc), Hl.
  assert (Hd : detectedGesture hand = None).
  { unfold detectedGesture.
    rewrite (length_lt_elem_None hand (i := 20)) by lia.
    destruct (elem hand 8), (elem hand 4), (elem hand 0), (elem hand 12),
      (elem hand 16); reflexivity. }
  unfold onResults. rewrite Hd. reflexivity.
Qed.

(** X3.  Whatever the events, the published cursor is the smoother's
    state, and the published gesture is NONE or the stable gesture of the
    history as it stands. *)
Theorem published_state_follows_refs (events : list (Event num)) :
  HandData.x (handData (store (run events))) = smoothedX (refs (run events))
  /\ HandData.y (handData (store (run events)))
     = smoothedY (refs (run events))
  /\ (HandData.gesture (handData (store (run events))) = NONE
      \/ stableGesture (gestureHistory (refs (run events)))
         = Some (HandData.gesture (handData (store (run events))))).
Proof.
  unfold run.
  set (Inv := fun p : Program num =>
    HandData.x (handData (store p)) = smoothedX (refs p)
    /\ HandData.y (handData (store p)) = smoothedY (refs p)
    /\ (HandData.gesture (handData (store p)) = NONE
        \/ stableGesture (gestureHistory (refs p))
           = Some (HandData.gesture (handData (store p))))).
  change (Inv (fold_left step events initialProgram)).
  assert (Hinit : Inv initialProgram) by (repeat split; left; reflexivity).
  revert Hinit. generalize (@initialProgram num _).
  induction events as [|e events IH]; intros p Hp; [exact Hp|].
  cbn [fold_left]. apply IH.
  destruct e as [t| | | | | |]; try exact Hp.
  destruct Hp as (Hx & Hy & Hg). unfold Inv. cbn [step].
  destruct (processed (refs p) t) eqn:Hproc.
  - rewrite (predictWebcam_processed _ (store p) _ Hproc).
    destruct (landmarks t) as [|hand rest].
    + rewrite onResults_absent. cbn. repeat split; auto.
    + destruct (onResults _ _ (hand :: rest) _) as [[r' actions]|] eqn:Hon;
        [|cbn; repeat split; auto].
      apply onResults_inv in Hon
        as (detected & wrist & stable & _ & _ & _ & Hst & _ & _ & _ & Hact).
      cbn [refs store]. rewrite Hact.
      destruct (modeTransition _ _ _ _); cbn; repeat split; right; exact Hst.
  - pose proof (predictWebcam_skipped (refs p) (store p) t Hproc)
      as (Hs & Hh & Hsx & Hsy & _).
    destruct (predictWebcam (refs p) (store p) t) as [[r' s'] o].
    cbn [fst snd] in *. cbn [refs store]. subst s'.
    rewrite Hh, Hsx, Hsy. repeat split; assumption.
Qed.

(** What an event does to the debounce time and, if it is a frame, to the
    mode. *)
Lemma step_debounce (p : Program num) (e : Event num) :
  (lastGestureTime (refs (step p e)) = lastGestureTime (refs p)
   /\ forall t, e = Frame t -> mode (store (step p e)) = mode (store p))
  \/ (exists t, e = Frame t
                /\ lastGestureTime (refs (step p e)) = now t
                /\ (now t - lastGestureTime (refs p) > 600)%Z
                /\ mode (store (step p e)) <> mode (store p)).
Proof.
  destruct e as [t| | | | | |];
    try (left; split; [reflexivity|intros ? [=]]).
  cbn [step].
  destruct (processed (refs p) t) eqn:Hproc.
  - rewrite (predictWebcam_processed _ (store p) _ Hproc).
    destruct (landmarks t) as [|hand rest].
    + rewrite onResults_absent. left. split; [reflexivity|]. reflexivity.
    + destruct (onResults _ _ (hand :: rest) _) as [[r' actions]|] eqn:Hon;
        [|left; split; reflexivity].
      apply onResults_inv in Hon
        as (detected & wrist & stable & _ & _ & _ & _ & _ & _ & Hlast & Hact).
      cbn [refs store]. rewrite Hlast, Hact.
      cbn [setLastVideoTime lastGestureTime].
      destruct (modeTransition stable (mode (store p)) (now t)
                  (lastGestureTime (refs p))) as [target|] eqn:Hm.
      * right. exists t. apply modeTransition_commits in Hm.
        destruct Hm as (Hgt & _ & Hne).
        repeat split; [exact Hgt|exact Hne].
      * left. split; reflexivity.
  - pose proof (predictWebcam_skipped (refs p) (store p) t Hproc)
      as (Hs & _ & _ & _ & Hl).
    destruct (predictWebcam (refs p) (store p) t) as [[r' s'] o].
    cbn [fst snd] in *. subst s'. left. split; [exact Hl|reflexivity].
Qed.

Lemma gestureModeChanges_after (events : list (Event num)) :
  forall p : Program num,
    Forall (fun a => (a - lastGestureTime (refs p) > 600)%Z)
           (gestureModeChanges p events)
    /\ Sorted (fun a b => (b - a > 600)%Z) (gestureModeChanges p events).
Proof.
  induction events as [|e events IH]; intros p; [split; constructor|].
  cbn [gestureModeChanges].
  destruct (IH (step p e)) as [Hall Hsorted].
  destruct (step_debounce p e) as [[Hlast Hmode]|(t & -> & Hlast & Hgt & Hne)].
  - assert (Hnil : match e with
                   | Frame t =>
                       if AppMode_beq (mode (store (step p e))) (mode (store p))
                       then [] else [now t]
                   | _ => []
                   end = []).
    { destruct e as [t| | | | | |]; try reflexivity.
      rewrite (Hmode t eq_refl).
      destruct (AppMode_beq_spec (mode (store p)) (mode (store p)));
        [reflexivity|congruence]. }
    rewrite Hnil. cbn [app]. rewrite Hlast in Hall. split; assumption.
  - destruct (AppMode_beq_spec (mode (store (step p (Frame t))))
                               (mode (store p))) as [Heq|_]; [congruence|].
    cbn [app]. rewrite Hlast in Hall. split.
    + constructor; [exact Hgt|].
      revert Hall. apply Forall_impl. intros a Ha. lia.
    + constructor; [exact Hsorted|].
      destruct (gestureModeChanges (step p (Frame t)) events);
        constructor.
      inversion Hall; subst. assumption.
Qed.

(** X4.  Mode changes made by gestures are debounced: along any sequence
    of events, from any state, the clocks of two successive ticks on which
    a gesture changed the mode are more than 600 ms apart, clicks on the
    mode buttons in between or not. *)
Theorem gesture_mode_changes_600ms_apart (p : Program num)
    (events : list (Event num)) :
  Sorted (fun a b => (b - a > 600)%Z) (gestureModeChanges p events).
Proof. apply gestureModeChanges_after. Qed.

End DetectorExtras.

Lemma predictWebcam_same_frame_once_witness :
  neqb (currentTime (Sample.tick (1#10) [Sample.fistHand] 1000))
       (currentTime (Sample.tick (1#10) [Sample.fistHand] 1000)) = false
  /\ fst (predictWebcam
            (fst (fst (predictWebcam initialRefs initialState
                         (Sample.tick (1#10) [Sample.fistHand] 1000))))
            (snd (fst (predictWebcam initialRefs initialState
                         (Sample.tick (1#10) [Sample.fistHand] 1000))))
            (Sample.tick (1#10) [Sample.fistHand] 1000))
     = fst (predictWebcam initialRefs initialState
              (Sample.tick (1#10) [Sample.fistHand] 1000)).
Proof.
  split; [vm_compute; reflexivity|].
  apply (@predictWebcam_same_frame_once float _ initialRefs initialState
           (Sample.tick (1#10) [Sample.fistHand] 1000)).
  vm_compute. reflexivity.
Defined.

Lemma short_hand_throws_witness :
  processed initialRefs
            (Sample.tick (1#10) [[Sample.wrist; Sample.mcp]] 1000) = true
  /\ predictWebcam initialRefs initialState
                   (Sample.tick (1#10) [[Sample.wrist; Sample.mcp]] 1000)
     = (setLastVideoTime initialRefs (lit (1#10)), initialState, Threw).
Proof.
  split; [vm_compute; reflexivity|].
  apply (@short_hand_throws float _ initialRefs initialState
           (Sample.tick (1#10) [[Sample.wrist; Sample.mcp]] 1000)
           [Sample.wrist; Sample.mcp] []).
  - vm_compute. reflexivity.
  - reflexivity.
  - cbn. lia.
Defined.

(** ** Further properties of the stabilizer *)

Lemma count_two_le_length (w : list GestureType) (g s : GestureType) :
  g <> s -> (count w g + count w s <= length w)%nat.
Proof.
  intros Hne. unfold count. induction w as [|a w IH]; [cbn; lia|].
  cbn [count_occ length].
  destruct (GestureType_eq_dec a g) as [Hg|Hg];
    destruct (GestureType_eq_dec a s) as [Hs|Hs]; try congruence; lia.
Qed.

(** X5.  A gesture that fills more than half of the window is the stable
    gesture, whatever the order of the samples. *)
Theorem majority_is_stable (w : list GestureType) (g : GestureType) :
  (length w < 2 * count w g)%nat -> stableGesture w = Some g.
Proof.
  intros Hmaj.
  assert (Hne : w <> []) by (intros ->; cbn in Hmaj; lia).
  destruct (stableGesture_spec Hne) as (s & Hst & [_ Hmax] & _).
  rewrite Hst. f_equal.
  destruct (GestureType_eq_dec g s) as [Heq|Hdiff]; [congruence|].
  pose proof (count_two_le_length w Hdiff). specialize (Hmax g). lia.
Qed.

Lemma majority_is_stable_witness :
  (length [PINCH; NONE; PINCH; OPEN_HAND; PINCH]
   < 2 * count [PINCH; NONE; PINCH; OPEN_HAND; PINCH] PINCH)%nat
  /\ stableGesture [PINCH; NONE; PINCH; OPEN_HAND; PINCH] = Some PINCH.
Proof.
  split; [cbn; lia|].
  apply (@majority_is_stable [PINCH; NONE; PINCH; OPEN_HAND; PINCH] PINCH).
  cbn. lia.
Defined.

Lemma skipn_repeat_add {A} (x : A) (j n : nat) :
  skipn j (repeat x (j + n)) = repeat x n.
Proof.
  rewrite repeat_app, skipn_app, repeat_length, Nat.sub_diag.
  rewrite skipn_all2 by (rewrite repeat_length; lia). reflexivity.
Qed.

(** X6.  The stabilizer answers a change of gesture on the fourth frame:
    after eight frames of [G], [k] frames of another gesture [H] leave [G]
    stable while [k] is at most 3, and make [H] stable from [k = 4] on
    (at 4 against 4 the tie goes to [H], seen last). *)
Theorem stabilizer_switches_on_fourth_frame (G H : GestureType) (k : nat) :
  G <> H ->
  stableGesture (fold_left pushGesture (repeat G 8 ++ repeat H k) [])
  = Some (if Nat.leb k 3 then G else H).
Proof.
  intros Hne. rewrite pushGesture_window, length_app, !repeat_length.
  replace (8 + k - 8)%nat with k by lia.
  do 8 (destruct k as [|k];
        [destruct G, H; try reflexivity; congruence|]).
  cbn [Nat.leb].
  replace (S (S (S (S (S (S (S (S k)))))))) with (8 + k)%nat by lia.
  rewrite skipn_app, repeat_length.
  rewrite skipn_all2 by (rewrite repeat_length; lia).
  replace (8 + k - 8)%nat with k by lia.
  replace (8 + k)%nat with (k + 8)%nat by lia.
  rewrite skipn_repeat_add. cbn [app].
  destruct H; reflexivity.
Qed.

Lemma stabilizer_switches_on_fourth_frame_witness :
  CLOSED_FIST <> OPEN_HAND
  /\ stableGesture
       (fold_left pushGesture (repeat CLOSED_FIST 8 ++ repeat OPEN_HAND 4) [])
     = Some OPEN_HAND.
Proof.
  split; [discriminate|].
  apply (@stabilizer_switches_on_fourth_frame CLOSED_FIST OPEN_HAND 4).
  discriminate.
Defined.

(** ** Further properties of the classifier, in exact arithmetic *)

Open Scope R_scope.

Lemma distance2d_nonneg (p q : Landmark.t R) : 0 <= distance2d p q.
Proof. apply hypotR_nonneg. Qed.

Lemma distance2d_similar (k dx dy : R) (depth : R -> R) (p q : Landmark.t R) :
  0 <= k ->
  distance2d (similar k dx dy depth p) (similar k dx dy depth q)
  = mul k (distance2d p q).
Proof.
  intros Hk. unfold distance2d, similar. cbn.
  rewrite <- hypotR_scale by assumption. f_equal; ring.
Qed.

Lemma ltb_scale_r (k a h c : R) :
  0 < k -> ltb (mul k a) (mul (mul k h) c) = ltb a (mul h c).
Proof.
  intros Hk. cbn.
  destruct (ltbR_spec (k * a) (k * h * c)); destruct (ltbR_spec a (h * c));
    try reflexivity; exfalso; nra.
Qed.

Lemma ltb_scale_l (k a h c : R) :
  0 < k -> ltb (mul (mul k h) c) (mul k a) = ltb (mul h c) a.
Proof.
  intros Hk. cbn.
  destruct (ltbR_spec (k * h * c) (k * a)); destruct (ltbR_spec (h * c) a);
    try reflexivity; exfalso; nra.
Qed.



(** X8.  In exact arithmetic, on a frame, the tests for HEART, VICTORY,
    CLOSED_FIST and OPEN_HAND exclude one another (HEART against VICTORY
    is shown above): the order of the classifier decides only where PINCH
    stands among them. *)
Theorem shape_tests_pairwise_exclusive
    (mcp wrist thumbTip indexTip middleTip ringTip pinkyTip : Landmark.t R) :
  let handSize := distance2d mcp wrist in
  let fingerDistances :=
    map (fun tip => distance2d tip wrist)
        [indexTip; middleTip; ringTip; pinkyTip] in
  isLove handSize thumbTip wrist fingerDistances
  && isFist handSize fingerDistances = false
  /\ isLove handSize thumbTip wrist fingerDistances
     && isOpen handSize fingerDistances = false
  /\ isVictory handSize fingerDistances
     && isFist handSize fingerDistances = false
  /\ isVictory handSize fingerDistances
     && isOpen handSize fingerDistances = false
  /\ isFist handSize fingerDistances
     && isOpen handSize fingerDistances = false.
Proof.
  intros handSize fingerDistances. subst fingerDistances.
  pose proof (distance2d_nonneg mcp wrist) as Hh. fold handSize in Hh.
  clearbody handSize.
  unfold isLove, isVictory, isFist, isOpen, thumbUp, indexUp, middleUp,
    middleDown, ringDown, pinkyDown, pinkyUp, gtb,
    OPEN_RATIO, FIST_RATIO, PINCH_RATIO.
  cbn [map forallb elem nth_error gtb_u ltb_u]. unfold gtb.
  generalize (distance2d thumbTip wrist) (distance2d indexTip wrist)
    (distance2d middleTip wrist) (distance2d ringTip wrist)
    (distance2d pinkyTip wrist).
  intros dt d0 d1 d2 d3. cbn -[Q2R]. rewrite !Q2R_dec.
  repeat split;
    repeat match goal with
           | |- context [Exact.ltbR ?a ?b] =>
               destruct (ltbR_spec a b); cbn [andb]; try reflexivity
           end;
    exfalso; lra.
Qed.

Close Scope R_scope.

(** ** The store and the photos *)

Section StoreExtras.
Context {num : Type} `{JSNumber num}.

Lemma updatePhotoDescription_photos (id desc : String.string)
    (s : AppState num) :
  photos (updatePhotoDescription id desc s) =
  map (fun p =>
         if String.eqb (PhotoData.id p) id
         then PhotoData.make (PhotoData.id p) (PhotoData.url p)
                (PhotoData.position p) (PhotoData.scatterPosition p)
                (Some desc)
         else p)
      (photos s).
Proof. reflexivity. Qed.

(** X9.  [updatePhotoDescription] writes the description of every photo
    that has the id and of no other, and keeps the number, the order, the
    ids, the urls and the positions of the photos; with an id no photo has
    it leaves the store as it is; a second description for the same id
    replaces the first. *)
Theorem updatePhotoDescription_touches_only_id (id desc : String.string)
    (s : AppState num) :
  map (@PhotoData.id num) (photos (updatePhotoDescription id desc s))
  = map (@PhotoData.id num) (photos s)
  /\ map (@PhotoData.url num) (photos (updatePhotoDescription id desc s))
     = map (@PhotoData.url num) (photos s)
  /\ map (@PhotoData.position num) (photos (updatePhotoDescription id desc s))
     = map (@PhotoData.position num) (photos s)
  /\ map (@PhotoData.scatterPosition num)
         (photos (updatePhotoDescription id desc s))
     = map (@PhotoData.scatterPosition num) (photos s)
  /\ (forall k p,
         nth_error (photos s) k = Some p ->
         nth_error (photos (updatePhotoDescription id desc s)) k =
         Some (if String.eqb (PhotoData.id p) id
               then PhotoData.make (PhotoData.id p) (PhotoData.url p)
                      (PhotoData.position p) (PhotoData.scatterPosition p)
                      (Some desc)
               else p))
  /\ (~ In id (map (@PhotoData.id num) (photos s)) ->
      updatePhotoDescription id desc s = s)
  /\ (forall desc',
         updatePhotoDescription id desc' (updatePhotoDescription id desc s)
         = updatePhotoDescription id desc' s).
Proof.
  rewrite updatePhotoDescription_photos.
  repeat split.
  - rewrite map_map. apply map_ext. intros p.
    destruct (String.eqb (PhotoData.id p) id); reflexivity.
  - rewrite map_map. apply map_ext. intros p.
    destruct (String.eqb (PhotoData.id p) id); reflexivity.
  - rewrite map_map. apply map_ext. intros p.
    destruct (String.eqb (PhotoData.id p) id); reflexivity.
  - rewrite map_map. apply map_ext. intros p.
    destruct (String.eqb (PhotoData.id p) id); reflexivity.
  - intros k p Hk. rewrite nth_error_map, Hk. reflexivity.
  - intros Hnot. destruct s as [m ps f hd]. unfold updatePhotoDescription.
    cbn [mode photos focusedPhotoId handData] in *. f_equal.
    rewrite <- (map_id ps) at 2. apply map_ext_in. intros p Hp.
    destruct (String.eqb_spec (PhotoData.id p) id) as [Heq|]; [|reflexivity].
    exfalso. apply Hnot. rewrite <- Heq. apply in_map. exact Hp.
  - intros desc'. unfold updatePhotoDescription.
    cbn [mode photos focusedPhotoId handData]. f_equal.
    rewrite map_map. apply map_ext. intros p.
    destruct (String.eqb (PhotoData.id p) id) eqn:He; cbn [PhotoData.id];
      rewrite He; reflexivity.
Qed.

End StoreExtras.

Lemma map_snd_combine_seq {A} (l : list A) (k : nat) :
  map snd (combine (seq k (length l)) l) = l.
Proof.
  revert k. induction l as [|a l IH]; intros k; [reflexivity|].
  cbn. f_equal. apply IH.
Qed.

Section UploadExtras.
Context {num : Type} `{JSArith num} `{JSTrig num}.

Lemma addPhotoUrls_photos (urls : list String.string)
    (draws : nat -> Draws num) (s : AppState num) :
  photos (addPhotoUrls urls draws s) =
  photos s ++ map (fun ku => newPhoto (snd ku) (draws (fst ku)))
                  (combine (seq 0 (length urls)) urls).
Proof. reflexivity. Qed.

(** X10.  An upload adds one photo per selected file after the photos
    already there, which it leaves as they are: the new photos carry the
    urls of the files in order and have no description; the mode, the
    focus and the hand data are kept; and with no file list or an empty
    one the store is left as it is. *)
Theorem handleFileUpload_appends {File : Type} (files : option (list File))
    (createObjectURL : File -> String.string) (draws : nat -> Draws num)
    (s : AppState num) :
  let selected := match files with Some l => l | None => [] end in
  let s' := handleFileUpload files createObjectURL draws s in
  firstn (length (photos s)) (photos s') = photos s
  /\ map (@PhotoData.url num) (skipn (length (photos s)) (photos s'))
     = map createObjectURL selected
  /\ Forall (fun p => PhotoData.description p = None)
            (skipn (length (photos s)) (photos s'))
  /\ mode s' = mode s
  /\ focusedPhotoId s' = focusedPhotoId s
  /\ handData s' = handData s
  /\ (selected = [] -> s' = s).
Proof.
  intros selected s'.
  assert (Hcase : (selected = [] /\ s' = s)
                  \/ (selected <> [] /\
                      s' = addPhotoUrls (map createObjectURL selected) draws s)).
  { subst selected s'. destruct files as [[|f fs]|]; cbn;
      [left|right|left]; split; try reflexivity; discriminate. }
  destruct Hcase as [[Hsel ->]|[Hsel ->]].
  - rewrite Hsel, firstn_all, skipn_all. cbn. repeat split; constructor.
  - rewrite addPhotoUrls_photos.
    rewrite firstn_app, firstn_all, Nat.sub_diag, app_nil_r.
    rewrite skipn_app, skipn_all, Nat.sub_diag. cbn [app skipn].
    repeat split.
    + rewrite map_map.
      etransitivity;
        [|apply (map_snd_combine_seq (map createObjectURL selected) 0)].
      apply map_ext. reflexivity.
    + apply Forall_forall. intros p Hp. apply in_map_iff in Hp.
      destruct Hp as (ku & <- & _). reflexivity.
    + intros Hnil. contradiction.
Qed.

End UploadExtras.

(** ** Where the photos are, in exact arithmetic *)

Open Scope R_scope.

Lemma sin_cos_square (a : R) : sin a * sin a + cos a * cos a = 1.
Proof. pose proof (sin2_cos2 a) as Hs. unfold Rsqr in Hs. exact Hs. Qed.

(** The radius of the tree's cone at height [y]. *)
Lemma newPhoto_position (url : String.string) (d : Draws R) :
  PhotoData.position (newPhoto url d) =
  (42 / 10 * (1 - (drawY d * 10 - 5 + 6) / 12) * cos (drawTheta d * PI * 2),
   drawY d * 10 - 5,
   42 / 10 * (1 - (drawY d * 10 - 5 + 6) / 12) * sin (drawTheta d * PI * 2)).
Proof.
  unfold newPhoto. cbn -[Q2R]. rewrite !Q2R_dec.
  replace (IZR 1 / IZR 1) with 1 by field.
  replace (IZR 2 / IZR 1) with 2 by field.
  replace (IZR 5 / IZR 1) with 5 by field.
  replace (IZR 6 / IZR 1) with 6 by field.
  replace (IZR 10 / IZR 1) with 10 by field.
  replace (IZR 12 / IZR 1) with 12 by field.
  reflexivity.
Qed.

Lemma newPhoto_scatterPosition (url : String.string) (d : Draws R) :
  PhotoData.scatterPosition (newPhoto url d) =
  ((10 + drawR d * 5) * sin (acos (2 * drawPhi d - 1))
   * cos (drawTheta d * PI * 2),
   (10 + drawR d * 5) * sin (acos (2 * drawPhi d - 1))
   * sin (drawTheta d * PI * 2),
   (10 + drawR d * 5) * cos (acos (2 * drawPhi d - 1))).
Proof.
  unfold newPhoto. cbn -[Q2R]. rewrite !Q2R_dec.
  replace (IZR 1 / IZR 1) with 1 by field.
  replace (IZR 2 / IZR 1) with 2 by field.
  replace (IZR 5 / IZR 1) with 5 by field.
  replace (IZR 10 / IZR 1) with 10 by field.
  reflexivity.
Qed.

(** X11.  In exact arithmetic, with the random values in [0,1), a new
    photo sits on the cone of the tree: its height [y] is in [-5,5) and its
    distance to the axis is the cone's radius 4.2 (1 - (y + 6) / 12) at that
    height, between 0.35 and 3.85; and its scatter position is at distance
    10 + 5 r from the origin, in [10,15). *)
Theorem newPhoto_on_cone_and_in_shell (url : String.string) (d : Draws R) :
  0 <= drawY d < 1 -> 0 <= drawR d < 1 ->
  let '(x, y, z) := PhotoData.position (newPhoto url d) in
  let '(sx, sy, sz) := PhotoData.scatterPosition (newPhoto url d) in
  -5 <= y < 5
  /\ x * x + z * z = (42 / 10 * (1 - (y + 6) / 12)) * (42 / 10 * (1 - (y + 6) / 12))
  /\ 35 / 100 < 42 / 10 * (1 - (y + 6) / 12) <= 385 / 100
  /\ sx * sx + sy * sy + sz * sz = (10 + drawR d * 5) * (10 + drawR d * 5)
  /\ 10 <= 10 + drawR d * 5 < 15.
Proof.
  intros Hy Hr. rewrite newPhoto_position, newPhoto_scatterPosition.
  pose proof (sin_cos_square (drawTheta d * PI * 2)) as Ht.
  pose proof (sin_cos_square (acos (2 * drawPhi d - 1))) as Hp.
  set (ct := cos (drawTheta d * PI * 2)) in *.
  set (st := sin (drawTheta d * PI * 2)) in *.
  set (cp := cos (acos (2 * drawPhi d - 1))) in *.
  set (sp := sin (acos (2 * drawPhi d - 1))) in *.
  set (rad := 42 / 10 * (1 - (drawY d * 10 - 5 + 6) / 12)).
  set (r := 10 + drawR d * 5).
  split; [lra|]. split; [|split; [|split]].
  - replace (rad * ct * (rad * ct) + rad * st * (rad * st))
      with (rad * rad * (st * st + ct * ct)) by ring.
    rewrite Ht. ring.
  - subst rad. lra.
  - replace (r * sp * ct * (r * sp * ct) + r * sp * st * (r * sp * st)
             + r * cp * (r * cp))
      with (r * r * (sp * sp * (st * st + ct * ct) + cp * cp)) by ring.
    rewrite Ht, Rmult_1_r, Hp. ring.
  - subst r. lra.
Qed.

Lemma newPhoto_on_cone_and_in_shell_witness :
  0 <= 1 / 2 < 1 /\ 0 <= 1 / 4 < 1
  /\ let '(x, y, z) :=
       PhotoData.position
         (newPhoto String.EmptyString
            {| drawTheta := 0; drawY := 1 / 2; drawR := 1 / 4;
               drawPhi := 1 / 2; drawId := String.EmptyString |}) in
     let '(sx, sy, sz) :=
       PhotoData.scatterPosition
         (newPhoto String.EmptyString
            {| drawTheta := 0; drawY := 1 / 2; drawR := 1 / 4;
               drawPhi := 1 / 2; drawId := String.EmptyString |}) in
     -5 <= y < 5
     /\ x * x + z * z
        = (42 / 10 * (1 - (y + 6) / 12)) * (42 / 10 * (1 - (y + 6) / 12))
     /\ 35 / 100 < 42 / 10 * (1 - (y + 6) / 12) <= 385 / 100
     /\ sx * sx + sy * sy + sz * sz = (10 + 1 / 4 * 5) * (10 + 1 / 4 * 5)
     /\ 10 <= 10 + 1 / 4 * 5 < 15.
Proof.
  split; [lra|]. split; [lra|].
  apply (@newPhoto_on_cone_and_in_shell String.EmptyString
           {| drawTheta := 0; drawY := 1 / 2; drawR := 1 / 4;
              drawPhi := 1 / 2; drawId := String.EmptyString |});
    cbn; lra.
Defined.

(** X12.  In exact arithmetic, in TREE mode a photo that is not focused
    heads for a point at the height and at the distance from the axis of
    its tree position, whatever the clock: it turns around the tree on its
    own circle; in the other modes it heads for its scatter position moved
    up or down by at most 0.1. *)
Theorem restTarget_keeps_circle (m : AppMode) (elapsedTime : R)
    (data : PhotoData.t R) :
  let '(px, py, pz) := PhotoData.position data in
  let '(sx, sy, sz) := PhotoData.scatterPosition data in
  let '((tx, ty, tz), scale) := PhotoCloud.restTarget m elapsedTime data in
  (m = TREE -> ty = py /\ tx * tx + tz * tz = px * px + pz * pz)
  /\ (m <> TREE -> tx = sx /\ tz = sz /\ Rabs (ty - sy) <= 1 / 10).
Proof.
  unfold PhotoCloud.restTarget.
  destruct (PhotoData.position data) as [[px py] pz].
  destruct (PhotoData.scatterPosition data) as [[sx sy] sz].
  destruct (AppMode_beq_spec m TREE) as [->|Hm].
  - split; [intros _|congruence]. cbn -[Q2R]. split; [reflexivity|].
    rewrite !Q2R_dec.
    pose proof (sin_cos_square (elapsedTime * (IZR 15 / IZR 100))) as Ht.
    set (c := cos _) in *. set (s := sin _) in *.
    replace ((px * c + pz * s) * (px * c + pz * s)
             + ((IZR 0 / IZR 1 - px) * s + pz * c)
               * ((IZR 0 / IZR 1 - px) * s + pz * c))
      with ((px * px + pz * pz) * (s * s + c * c)) by field.
    rewrite Ht. ring.
  - split; [congruence|intros _]. cbn -[Q2R]. rewrite !Q2R_dec.
    split; [reflexivity|]. split; [reflexivity|].
    replace (sy + sin (elapsedTime + px) * (IZR 1 / IZR 10) - sy)
      with (sin (elapsedTime + px) * (1 / 10)) by field.
    pose proof (SIN_bound (elapsedTime + px)) as [Hlo Hhi].
    apply Rabs_le. lra.
Qed.

Close Scope R_scope.

(** ** The description service *)

Lemma truthy_Some (t : String.string) :
  truthy (Some t) = true <-> t <> String.EmptyString.
Proof.
  unfold truthy. destruct (String.eqb_spec t String.EmptyString); cbn;
    split; congruence.
Qed.

(** X13.  The client is built once, lazily, with the first usable key:
    after any calls of [getClient], the client is the one made with the
    first key that was neither missing nor empty, or none if there was no
    such key; keys seen later are ignored. *)
Theorem getClient_first_usable_key (keys : list (option String.string)) :
  fold_left (fun client key => Gemini.getClient key client) keys None =
  match find truthy keys with
  | Some (Some key) => Some {| Gemini.apiKey := key |}
  | _ => None
  end.
Proof.
  assert (Hkeep : forall ks c,
             fold_left (fun client key => Gemini.getClient key client) ks
                       (Some c) = Some c).
  { induction ks as [|k ks IH]; intros c; [reflexivity|]. cbn. apply IH. }
  induction keys as [|k keys IH]; [reflexivity|].
  cbn [fold_left find]. destruct k as [key|]; cbn [Gemini.getClient].
  - destruct (truthy (Some key)); [apply Hkeep|exact IH].
  - cbn [truthy]. exact IH.
Qed.

(** The string the promise resolves with is not empty. *)
Lemma generateHolidayDescription_text (net : Gemini.Network)
    (API_KEY : option String.string) (client : option Gemini.GoogleGenAI)
    (imageUrl : String.string) :
  snd (Gemini.generateHolidayDescription net API_KEY client imageUrl)
  <> String.EmptyString.
Proof.
  unfold Gemini.generateHolidayDescription.
  destruct (Gemini.getClient API_KEY client) as [ai|]; [|discriminate].
  destruct (Gemini.fetchDataUrl net imageUrl) as [result|]; [|discriminate].
  destruct (Gemini.generateContent net ai (elem (split comma result) 1))
    as [[t|]|]; cbn [snd truthy]; try discriminate.
  destruct (String.eqb_spec t String.EmptyString); cbn [negb];
    [discriminate|assumption].
Qed.


Lemma split_no_separator (sep : Ascii.ascii) (s : String.string) :
  occurs sep s = false -> split sep s = [s].
Proof.
  induction s as [|c s IH]; [reflexivity|]. cbn.
  destruct (Ascii.eqb c sep); [discriminate|]. cbn. intros Hs.
  rewrite (IH Hs). reflexivity.
Qed.

Lemma split_first (sep : Ascii.ascii) (prefix rest : String.string) :
  occurs sep prefix = false ->
  split sep (String.append prefix (String.String sep rest))
  = prefix :: split sep rest.
Proof.
  induction prefix as [|c prefix IH]; cbn.
  - intros _. rewrite Ascii.eqb_refl. reflexivity.
  - destruct (Ascii.eqb c sep); [discriminate|]. cbn. intros Hs.
    rewrite (IH Hs). reflexivity.
Qed.


(** ** The photo cloud *)

Lemma fold_left_invariant {A B} (P : A -> Prop) (f : A -> B -> A)
    (l : list B) (a : A) :
  P a -> (forall a b, In b l -> P a -> P (f a b)) -> P (fold_left f l a).
Proof.
  revert a. induction l as [|b l IH]; intros a Ha Hf; [exact Ha|].
  cbn. apply IH.
  - apply Hf; [left; reflexivity|exact Ha].
  - intros a' b' Hb'. apply Hf. right. exact Hb'.
Qed.

Section PhotoCloudExtras.
Context {num : Type} `{JSArith num}.

Lemma applyEffects_focus (effects : list PhotoCloud.Effect)
    (s : AppState num) :
  photos (PhotoCloud.applyEffects effects s) = photos s
  /\ mode (PhotoCloud.applyEffects effects s) = mode s
  /\ handData (PhotoCloud.applyEffects effects s) = handData s.
Proof.
  unfold PhotoCloud.applyEffects. revert s.
  induction effects as [|e effects IH]; intros s; [auto|].
  cbn [fold_left]. destruct e as [id|id url]; [|apply IH].
  destruct (IH (setFocusedPhotoId id s)) as (Hp & Hm & Hh).
  rewrite Hp, Hm, Hh. auto.
Qed.

(** The closest item, when there is one, is one of the items, with its
    distance. *)
Lemma closest_is_item (handData : HandData.t num)
    (items : list (PhotoCloud.Projected num)) :
  PhotoCloud.closest handData items = (None, None)
  \/ exists item,
       In item items
       /\ PhotoCloud.closest handData items =
          (Some (PhotoCloud.key item),
           Some (PhotoCloud.screenDistance handData item)).
Proof.
  unfold PhotoCloud.closest.
  apply fold_left_invariant with
    (P := fun best =>
            best = (None, None)
            \/ exists item,
                 In item items
                 /\ best = (Some (PhotoCloud.key item),
                            Some (PhotoCloud.screenDistance handData item))).
  - left. reflexivity.
  - intros best item Hin Hbest.
    destruct (PhotoCloud.closer _ (snd best)); [|exact Hbest].
    right. exists item. split; [exact Hin|reflexivity].
Qed.

Lemma describeIfMissing_applies (l : list (PhotoData.t num))
    (id : String.string) (s : AppState num) :
  PhotoCloud.applyEffects (PhotoCloud.describeIfMissing l id) s = s.
Proof.
  unfold PhotoCloud.describeIfMissing.
  destruct (find _ l) as [photo|]; [|reflexivity].
  destruct (truthy (PhotoData.description photo)); reflexivity.
Qed.

(** X16.  A frame of the interaction loop never moves the focus from one
    photo to another: it leaves the focus as it is, or releases a focused
    photo when the published gesture is OPEN_HAND, or, with nothing
    focused and the gesture PINCH, focuses a registered photo whose key is
    not empty.  It changes nothing else in the store. *)
Theorem interaction_focus_protocol (s : AppState num)
    (items : list (PhotoCloud.Projected num)) :
  let s' := PhotoCloud.applyEffects (PhotoCloud.interaction s items) s in
  (focusedPhotoId s' = focusedPhotoId s
   \/ (truthy (focusedPhotoId s) = true
       /\ HandData.gesture (handData s) = OPEN_HAND
       /\ focusedPhotoId s' = None)
   \/ (truthy (focusedPhotoId s) = false
       /\ HandData.gesture (handData s) = PINCH
       /\ exists item, In item items
                       /\ focusedPhotoId s' = Some (PhotoCloud.key item)
                       /\ PhotoCloud.key item <> String.EmptyString))
  /\ photos s' = photos s /\ mode s' = mode s /\ handData s' = handData s.
Proof.
  cbv zeta. split; [|apply applyEffects_focus].
  unfold PhotoCloud.interaction.
  destruct (truthy (focusedPhotoId s)) eqn:Hf.
  - destruct (GestureType_beq_spec (HandData.gesture (handData s)) OPEN_HAND);
      [right; left; auto|left; reflexivity].
  - destruct (GestureType_beq_spec (HandData.gesture (handData s)) PINCH)
      as [Hg|]; [|left; reflexivity].
    destruct (closest_is_item (handData s) items) as [->|(item & Hin & ->)];
      [left; reflexivity|].
    destruct (truthy (Some (PhotoCloud.key item))) eqn:Hk;
      [|left; reflexivity].
    destruct (ltb _ _); [|left; reflexivity].
    right. right. split; [reflexivity|]. split; [exact Hg|].
    exists item. split; [exact Hin|].
    split; [|apply truthy_Some; exact Hk].
    cbn [andb]. unfold PhotoCloud.applyEffects at 1. cbn [fold_left].
    fold (PhotoCloud.applyEffects
            (PhotoCloud.describeIfMissing (photos s) (PhotoCloud.key item))
            (setFocusedPhotoId (Some (PhotoCloud.key item)) s)).
    rewrite describeIfMissing_applies. reflexivity.
Qed.

Lemma describeIfMissing_described (l : list (PhotoData.t num))
    (id url : String.string) :
  In (PhotoCloud.RequestDescription id url) (PhotoCloud.describeIfMissing l id) ->
  exists photo,
    find (fun p => String.eqb (PhotoData.id p) id) l = Some photo
    /\ truthy (PhotoData.description photo) = false.
Proof.
  unfold PhotoCloud.describeIfMissing.
  destruct (find _ l) as [photo|]; [|intros []].
  destruct (truthy (PhotoData.description photo)) eqn:Ht; [intros []|].
  intros _. exists photo. auto.
Qed.

Lemma interaction_request (s : AppState num)
    (items : list (PhotoCloud.Projected num)) (id url : String.string) :
  In (PhotoCloud.RequestDescription id url) (PhotoCloud.interaction s items) ->
  exists photo,
    find (fun p => String.eqb (PhotoData.id p) id) (photos s) = Some photo
    /\ truthy (PhotoData.description photo) = false.
Proof.
  unfold PhotoCloud.interaction.
  destruct (truthy (focusedPhotoId s)).
  - destruct (GestureType_beq _ OPEN_HAND); [intros [Hd|[]]; discriminate Hd|].
    intros [].
  - destruct (GestureType_beq _ PINCH); [|intros []].
    destruct (PhotoCloud.closest (handData s) items) as [[cid|] [d|]];
      try (intros []).
    destruct (truthy (Some cid) && ltb d (lit (2#10))); [|intros []].
    intros [Hd|Hin]; [discriminate Hd|].
    assert (Hid : cid = id).
    { unfold PhotoCloud.describeIfMissing in Hin.
      destruct (find _ (photos s)) as [photo|]; [|destruct Hin].
      destruct (truthy (PhotoData.description photo)); [destruct Hin|].
      destruct Hin as [[= -> _]|[]]. reflexivity. }
    subst cid. apply describeIfMissing_described with (url := url).
    exact Hin.
Qed.

(** X17.  A description that arrived is not asked for again: once
    [updatePhotoDescription] has stored for [id] the answer of
    [generateHolidayDescription], no frame of the interaction loop asks for
    a description of [id], and no click on a photo of that id does. *)
Theorem described_photo_not_requested_again (net : Gemini.Network)
    (API_KEY : option String.string) (client : option Gemini.GoogleGenAI)
    (imageUrl id : String.string) (s : AppState num) :
  let desc :=
    snd (Gemini.generateHolidayDescription net API_KEY client imageUrl) in
  let s' := updatePhotoDescription id desc s in
  (forall items url,
      ~ In (PhotoCloud.RequestDescription id url)
           (PhotoCloud.interaction s' items))
  /\ (forall data url,
         In data (photos s') -> PhotoData.id data = id ->
         ~ In (PhotoCloud.RequestDescription id url)
              (PhotoCloud.onClick s' data)).
Proof.
  intros desc s'.
  assert (Hdesc : desc <> String.EmptyString).
  { subst desc. apply generateHolidayDescription_text. }
  assert (Hall : forall p, In p (photos s') -> PhotoData.id p = id ->
                           truthy (PhotoData.description p) = true).
  { intros p Hp Hid. subst s'. rewrite updatePhotoDescription_photos in Hp.
    apply in_map_iff in Hp. destruct Hp as (q & <- & _).
    destruct (String.eqb_spec (PhotoData.id q) id) as [_|Hne].
    - cbn. apply truthy_Some. exact Hdesc.
    - cbn in Hid. destruct (String.eqb_spec (PhotoData.id q) id);
        congruence. }
  split.
  - intros items url Hin. apply interaction_request in Hin.
    destruct Hin as (photo & Hfind & Hfalsy).
    apply find_some in Hfind. destruct Hfind as [Hp Hid].
    apply String.eqb_eq in Hid. rewrite (Hall photo Hp Hid) in Hfalsy.
    discriminate.
  - intros data url Hdata Hid Hin. unfold PhotoCloud.onClick in Hin.
    rewrite (Hall data Hdata Hid) in Hin.
    rewrite andb_false_r in Hin.
    destruct (AppMode_beq (mode s') SCATTER || _); [|destruct Hin].
    destruct Hin as [Hd|[]]. discriminate Hd.
Qed.

End PhotoCloudExtras.

(** *** The nearest photo, in exact arithmetic *)

Open Scope R_scope.

Lemma closest_from_minimal (handData : HandData.t R)
    (l : list (PhotoCloud.Projected R)) :
  forall id0 d0,
  exists id d,
    fold_left
      (fun best item =>
         if PhotoCloud.closer (PhotoCloud.screenDistance handData item)
                              (snd best)
         then (Some (PhotoCloud.key item),
               Some (PhotoCloud.screenDistance handData item))
         else best) l (Some id0, Some d0) = (Some id, Some d)
    /\ d <= d0
    /\ forall item, In item l -> d <= PhotoCloud.screenDistance handData item.
Proof.
  induction l as [|it l IH]; intros id0 d0.
  - exists id0, d0. split; [reflexivity|]. split; [lra|intros ? []].
  - cbn [fold_left snd PhotoCloud.closer].
    change (ltb (PhotoCloud.screenDistance handData it) d0)
      with (Exact.ltbR (PhotoCloud.screenDistance handData it) d0).
    destruct (ltbR_spec (PhotoCloud.screenDistance handData it) d0)
      as [Hlt|Hge].
    + destruct (IH (PhotoCloud.key it)
                   (PhotoCloud.screenDistance handData it))
        as (id & d & Hfold & Hle & Hall).
      exists id, d. split; [exact Hfold|]. split; [lra|].
      intros item [<-|Hin]; [exact Hle|apply Hall; exact Hin].
    + destruct (IH id0 d0) as (id & d & Hfold & Hle & Hall).
      exists id, d. split; [exact Hfold|]. split; [exact Hle|].
      intros item [<-|Hin]; [lra|apply Hall; exact Hin].
Qed.

Lemma closest_minimal (handData : HandData.t R)
    (items : list (PhotoCloud.Projected R)) (id : String.string) (d : R) :
  PhotoCloud.closest handData items = (Some id, Some d) ->
  forall item, In item items -> d <= PhotoCloud.screenDistance handData item.
Proof.
  unfold PhotoCloud.closest. destruct items as [|it l]; [discriminate|].
  cbn [fold_left snd PhotoCloud.closer]. cbn [below_infinity exact_arith].
  destruct (closest_from_minimal handData l (PhotoCloud.key it)
              (PhotoCloud.screenDistance handData it))
    as (id' & d' & Hfold & Hle & Hall).
  rewrite Hfold. intros [= -> ->] item [<-|Hin];
    [exact Hle|apply Hall; exact Hin].
Qed.



Close Scope R_scope.

(** ** Loading the hand landmarker *)

(** The three states of the cache: nothing cached and nothing loading or
    loaded; promise [p] cached and loading; promise [p] cached and
    loaded. *)
Lemma loader_states (events : list Loader.Event) :
  (Loader.landmarkerPromise (Loader.cache (Loader.run events)) = None
   /\ Loader.loading (Loader.run events) = []
   /\ Loader.loaded (Loader.run events) = [])
  \/ (exists p,
        Loader.landmarkerPromise (Loader.cache (Loader.run events)) = Some p
        /\ Loader.loading (Loader.run events) = [p]
        /\ Loader.loaded (Loader.run events) = [])
  \/ (exists p,
        Loader.landmarkerPromise (Loader.cache (Loader.run events)) = Some p
        /\ Loader.loading (Loader.run events) = []
        /\ Loader.loaded (Loader.run events) = [p]).
Proof.
  unfold Loader.run.
  apply fold_left_invariant with
    (P := fun w =>
      (Loader.landmarkerPromise (Loader.cache w) = None
       /\ Loader.loading w = [] /\ Loader.loaded w = [])
      \/ (exists p,
            Loader.landmarkerPromise (Loader.cache w) = Some p
            /\ Loader.loading w = [p] /\ Loader.loaded w = [])
      \/ (exists p,
            Loader.landmarkerPromise (Loader.cache w) = Some p
            /\ Loader.loading w = [] /\ Loader.loaded w = [p])).
  - left. auto.
  - intros [c ing ed] e _ Hw. cbn [Loader.cache Loader.loading Loader.loaded] in Hw.
    destruct Hw as [(Hc & -> & ->)|[(p & Hc & -> & ->)|(p & Hc & -> & ->)]];
      destruct e as [|q|q]; unfold Loader.step;
      cbn [Loader.cache Loader.loading Loader.loaded existsb];
      unfold Loader.initializeHandLandmarker; rewrite ?Hc;
      cbn [fst snd Loader.cache Loader.loading Loader.loaded
           Loader.landmarkerPromise];
      try (left; cbn; auto; fail);
      try (right; left; eexists; cbn; eauto; fail);
      try (right; right; eexists; cbn; eauto; fail).
    + destruct (Nat.eqb_spec q p) as [->|Hne]; cbn [orb].
      * left. cbn. rewrite Nat.eqb_refl. auto.
      * right. left. exists p. cbn. auto.
    + destruct (Nat.eqb_spec q p) as [->|Hne]; cbn [orb].
      * right. right. exists p. cbn. rewrite Nat.eqb_refl. auto.
      * right. left. exists p. cbn. auto.
Qed.

(** X19.  The landmarker is never loaded twice at once, and a loaded one is
    kept: along any calls, failures and successes, at most one promise is
    loading; and once a promise has loaded, whatever follows, the cache
    holds it, every call returns it and no new promise is made. *)
Theorem loader_single_flight (events : list Loader.Event) :
  (length (Loader.loading (Loader.run events)) <= 1)%nat
  /\ forall p,
       In p (Loader.loaded (Loader.run events)) ->
       forall more,
         Loader.cache (Loader.run (events ++ more))
         = Loader.cache (Loader.run events)
         /\ Loader.initializeHandLandmarker
              (Loader.cache (Loader.run (events ++ more)))
            = (Loader.cache (Loader.run events), p).
Proof.
  split.
  - destruct (loader_states events)
      as [(_ & -> & _)|[(p & _ & -> & _)|(p & _ & -> & _)]]; cbn; lia.
  - intros p Hp more.
    assert (Hkeep : Loader.cache (Loader.run (events ++ more))
                    = Loader.cache (Loader.run events)
                    /\ Loader.landmarkerPromise
                         (Loader.cache (Loader.run events)) = Some p).
    { induction more as [|e more IH] using rev_ind.
      - rewrite app_nil_r. split; [reflexivity|].
        destruct (loader_states events)
          as [(_ & _ & He)|[(q & _ & _ & He)|(q & Hc & _ & He)]];
          rewrite He in Hp; [destruct Hp|destruct Hp|].
        destruct Hp as [<-|[]]. exact Hc.
      - destruct IH as [IH Hc]. split; [|exact Hc].
        rewrite <- IH. rewrite app_assoc. unfold Loader.run at 1.
        rewrite fold_left_app. cbn [fold_left].
        fold (Loader.run (events ++ more)).
        destruct (loader_states (events ++ more))
          as [(Hn & _ & _)|[(q & Hq & Hl & He)|(q & Hq & Hl & He)]].
        + rewrite IH, Hc in Hn. discriminate.
        + exfalso.
          assert (Hmono : In p (Loader.loaded (Loader.run (events ++ more)))).
          { clear -Hp. unfold Loader.run. rewrite fold_left_app.
            fold (Loader.run events).
            generalize dependent (Loader.run events).
            induction more as [|e more IH]; intros w Hw; [exact Hw|].
            cbn [fold_left]. apply IH.
            destruct e as [|q|q]; unfold Loader.step.
            - destruct (Loader.landmarkerPromise (Loader.cache w)); exact Hw.
            - destruct (existsb _ _); exact Hw.
            - destruct (existsb _ _); [right|]; exact Hw. }
          rewrite He in Hmono. destruct Hmono.
        + destruct e as [|r|r]; unfold Loader.step.
          * rewrite Hq. unfold Loader.initializeHandLandmarker. rewrite Hq.
            reflexivity.
          * rewrite Hl. reflexivity.
          * rewrite Hl. reflexivity. }
    destruct Hkeep as [Hk Hc]. split; [exact Hk|].
    rewrite Hk. unfold Loader.initializeHandLandmarker. rewrite Hc.
    reflexivity.
Qed.

Lemma init_unrolled (env : Loader.Env) :
  Loader.init env 1 =
  Loader.Wait 500 ::
  (if Loader.mountedAfterDelay env 1 then
     Loader.Load 1 ::
     (if Loader.resolves env 1 then
        if Loader.mountedAfterLoad env 1 then [Loader.SetLandmarker 1] else []
      else
        Loader.LogError 1 ::
        (if Loader.mountedAfterLoad env 1 then
           Loader.Wait 1000 :: Loader.Wait 500 ::
           (if Loader.mountedAfterDelay env 2 then
              Loader.Load 2 ::
              (if Loader.resolves env 2 then
                 if Loader.mountedAfterLoad env 2
                 then [Loader.SetLandmarker 2] else []
               else
                 Loader.LogError 2 ::
                 (if Loader.mountedAfterLoad env 2 then
                    Loader.Wait 2000 :: Loader.Wait 500 ::
                    (if Loader.mountedAfterDelay env 3 then
                       Loader.Load 3 ::
                       (if Loader.resolves env 3 then
                          if Loader.mountedAfterLoad env 3
                          then [Loader.SetLandmarker 3] else []
                        else [Loader.LogError 3])
                     else [])
                  else []))
            else [])
         else []))
   else []).
Proof.
  rewrite Loader.init_equation_1. cbn [Nat.ltb Nat.leb].
  rewrite Loader.init_equation_1. cbn [Nat.ltb Nat.leb].
  rewrite Loader.init_equation_1. cbn [Nat.ltb Nat.leb].
  reflexivity.
Qed.

(** X20.  Whatever the loading and the mounting do, the effect loads at
    most three times, the attempts 1, 2, ... in order, and waits at most
    4500 ms in all; if it sets the landmarker, that is the last thing it
    does, the attempt that set it had succeeded and was the last one
    loaded. *)
Theorem init_at_most_three_loads (env : Loader.Env) :
  (length (loads (Loader.init env 1)) <= 3)%nat
  /\ loads (Loader.init env 1) = seq 1 (length (loads (Loader.init env 1)))
  /\ (waited (Loader.init env 1) <= 4500)%Z
  /\ forall k,
       In (Loader.SetLandmarker k) (Loader.init env 1) ->
       Loader.resolves env k = true
       /\ last (Loader.init env 1) (Loader.Wait 0) = Loader.SetLandmarker k
       /\ loads (Loader.init env 1) = seq 1 k.
Proof.
  rewrite init_unrolled.
  repeat match goal with
         | |- context [if ?b then _ else _] => destruct b eqn:?
         end;
    (split; [cbn; lia|]); (split; [reflexivity|]);
    (split; [cbn; lia|]);
    intros k Hin; cbn in Hin;
    repeat match goal with
           | H : _ \/ _ |- _ => destruct H as [H|H]
           | H : False |- _ => destruct H
           | H : Loader.SetLandmarker _ = Loader.SetLandmarker _ |- _ =>
               injection H as <-
           | H : _ = Loader.SetLandmarker _ |- _ => discriminate H
           end;
    repeat split; assumption.
Qed.

(** X21.  While the component stays mounted, the landmarker is set by the
    first of the attempts 1, 2, 3 whose loading succeeds, after waiting
    500 ms before each load and 1000 ms, then 2000 ms, after a failure
    (500, 2000 or 4500 ms in all); if the three fail, the effect gives up
    after the third failure, 4500 ms of waiting, and sets nothing. *)
Theorem init_first_success (env : Loader.Env) :
  staysMounted env ->
  match find (Loader.resolves env) [1; 2; 3]%nat with
  | Some k =>
      last (Loader.init env 1) (Loader.Wait 0) = Loader.SetLandmarker k
      /\ loads (Loader.init env 1) = seq 1 k
      /\ waited (Loader.init env 1)
         = (500 * Z.of_nat k + 500 * Z.of_nat k * (Z.of_nat k - 1))%Z
  | None =>
      last (Loader.init env 1) (Loader.Wait 0) = Loader.LogError 3
      /\ loads (Loader.init env 1) = [1; 2; 3]%nat
      /\ waited (Loader.init env 1) = 4500%Z
  end.
Proof.
  intros Hm. rewrite init_unrolled.
  rewrite !(proj1 (Hm _)), !(proj2 (Hm _)). cbn [find].
  destruct (Loader.resolves env 1); [repeat split|].
  destruct (Loader.resolves env 2); [repeat split|].
  destruct (Loader.resolves env 3); repeat split.
Qed.

Lemma init_first_success_witness :
  staysMounted
    {| Loader.resolves := Nat.eqb 2;
       Loader.mountedAfterDelay := fun _ => true;
       Loader.mountedAfterLoad := fun _ => true |}
  /\ last (Loader.init
             {| Loader.resolves := Nat.eqb 2;
                Loader.mountedAfterDelay := fun _ => true;
                Loader.mountedAfterLoad := fun _ => true |} 1)
          (Loader.Wait 0) = Loader.SetLandmarker 2
  /\ loads (Loader.init
              {| Loader.resolves := Nat.eqb 2;
                 Loader.mountedAfterDelay := fun _ => true;
                 Loader.mountedAfterLoad := fun _ => true |} 1)
     = [1; 2]%nat
  /\ waited (Loader.init
               {| Loader.resolves := Nat.eqb 2;
                  Loader.mountedAfterDelay := fun _ => true;
                  Loader.mountedAfterLoad := fun _ => true |} 1)
     = 2000%Z.
Proof.
  assert (Hm : staysMounted
                 {| Loader.resolves := Nat.eqb 2;
                    Loader.mountedAfterDelay := fun _ => true;
                    Loader.mountedAfterLoad := fun _ => true |})
    by (intros k; split; reflexivity).
  split; [exact Hm|].
  exact (init_first_success Hm).
Defined.

(** ** The camera *)

Section CameraExtras.
Context {num : Type} `{JSArith num} `{JSTrig num}.

(** X22.  While the closure of the input effect was built with a focused
    photo, the wheel and the pointer change nothing in the view: the wheel
    is ignored, no drag can start, and so no move counts, whatever the
    inputs and their order. *)
Theorem focused_canvas_inputs_ignored (id : option String.string)
    (inputs : list (Camera.Input num)) (v : Camera.View num) :
  truthy id = true -> forallb fromCanvas inputs = true ->
  snd (fold_left Camera.feed inputs (Camera.bind id, v)) = v.
Proof.
  intros Hid Hall.
  assert (Hgen : forall d,
             Camera.focused d = true -> Camera.isDragging d = false ->
             snd (fold_left Camera.feed inputs (d, v)) = v).
  { revert Hall. clear Hid. induction inputs as [|i inputs IH];
      intros Hall d Hf Hd; [reflexivity|].
    cbn [forallb] in Hall. apply andb_prop in Hall as [Hi Hall].
    cbn [fold_left].
    destruct i as [deltaY|x y|x y b| | |]; try discriminate Hi;
      cbn [Camera.feed].
    - unfold Camera.handleWheel. rewrite Hf. apply IH; assumption.
    - unfold Camera.handlePointerDown. rewrite Hf. apply IH; assumption.
    - unfold Camera.handlePointerMove. rewrite Hd. cbn [negb].
      apply IH; assumption.
    - apply IH; [assumption| |reflexivity]. exact Hf. }
  apply Hgen; [cbn; exact Hid|reflexivity].
Qed.

End CameraExtras.

Open Scope R_scope.

Lemma clamp_range (value mn mx : R) :
  mn <= mx -> mn <= Camera.clamp value mn mx <= mx.
Proof.
  intros Hle. unfold Camera.clamp. cbn. split.
  - apply Rmax_l.
  - apply Rmax_lub; [exact Hle|apply Rmin_l].
Qed.

Lemma focused_canvas_inputs_ignored_witness :
  truthy (Some (String.String comma String.EmptyString)) = true
  /\ forallb fromCanvas
       [Camera.Wheel 100; Camera.PointerDown 1 1; Camera.PointerMove 5 9 1;
        Camera.PointerUp] = true
  /\ snd (fold_left Camera.feed
            [Camera.Wheel 100; Camera.PointerDown 1 1;
             Camera.PointerMove 5 9 1; Camera.PointerUp]
            (Camera.bind (Some (String.String comma String.EmptyString)),
             Camera.initialView))
     = Camera.initialView.
Proof.
  split; [reflexivity|]. split; [reflexivity|].
  apply (@focused_canvas_inputs_ignored R _ _ _
           (Some (String.String comma String.EmptyString))
           [Camera.Wheel 100; Camera.PointerDown 1 1;
            Camera.PointerMove 5 9 1; Camera.PointerUp]
           Camera.initialView); reflexivity.
Defined.

(** X23.  In exact arithmetic the zoom target stays between 0.4 and 2.5:
    from the initial view, and from any closure, whatever the wheel, the
    pointer, the rebindings and the frames do. *)
Theorem targetZoom_in_range (d : Camera.Drag R)
    (inputs : list (Camera.Input R)) :
  4 / 10
  <= Camera.targetZoom
       (snd (fold_left Camera.feed inputs (d, Camera.initialView)))
  <= 25 / 10.
Proof.
  apply fold_left_invariant with
    (P := fun st : Camera.Drag R * Camera.View R =>
            4 / 10 <= Camera.targetZoom (snd st) <= 25 / 10).
  - cbn -[Q2R]. rewrite Q2R_1. lra.
  - intros [d' v] i _ Hv. cbn [snd] in Hv.
    destruct i as [deltaY|x y|x y b| |id|id m hd portrait t delta];
      cbn [Camera.feed snd]; try exact Hv.
    + unfold Camera.handleWheel.
      destruct (Camera.focused d'); [exact Hv|].
      cbn [Camera.targetZoom].
      change (lit (4#10)) with (Q2R (4#10)).
      change (lit (25#10)) with (Q2R (25#10)). rewrite !Q2R_dec.
      apply clamp_range. lra.
    + unfold Camera.handlePointerMove.
      destruct (negb (Camera.isDragging d')); [exact Hv|].
      destruct (Z.eqb b 1); [exact Hv|].
      destruct (Z.eqb b 2 || Z.eqb b 4); exact Hv.
    + unfold Camera.useFrame, Camera.smoothed.
      destruct (truthy id).
      * cbn -[Q2R]. rewrite Q2R_1. lra.
      * destruct (AppMode_beq m SCATTER); exact Hv.
Qed.

(** X24.  In exact arithmetic, on a frame with no photo focused the camera
    looks at the pan point and stands on a circle around the vertical axis
    through it, of radius the mode's radius (28 or 22 in SCATTER mode, 17.5
    or 14 otherwise, portrait or not) times the smoothed zoom; in SCATTER
    mode its height above the pan point and the orbit offset is within
    [-2, 8], and an open hand in the dead zone (less than 0.05 from the
    middle) leaves the angle as it is; in the other modes that height is
    within 0.5 of 0 and the angle is not touched. *)
Theorem camera_on_circle (id : option String.string) (m : AppMode)
    (hd : HandData.t R) (portrait : bool) (elapsedTime delta : R)
    (v : Camera.View R) :
  truthy id = false ->
  let v' := fst (Camera.useFrame id m hd portrait elapsedTime delta v) in
  let radius :=
    (if AppMode_beq m SCATTER
     then if portrait then 28 else 22
     else if portrait then 175 / 10 else 14)
    * Camera.currentZoom v' in
  exists position lookAt,
    snd (Camera.useFrame id m hd portrait elapsedTime delta v)
    = Some (position, lookAt)
    /\ Camera.vx lookAt = Camera.vx (Camera.currentPan v')
    /\ Camera.vy lookAt = Camera.vy (Camera.currentPan v')
    /\ Camera.vz lookAt = Camera.vz (Camera.currentPan v')
    /\ (Camera.vx position - Camera.vx lookAt)
       * (Camera.vx position - Camera.vx lookAt)
       + (Camera.vz position - Camera.vz lookAt)
         * (Camera.vz position - Camera.vz lookAt)
       = radius * radius
    /\ (m = SCATTER ->
        -2 <= Camera.vy position - Camera.vy lookAt
              - snd (Camera.currentOrbit v') <= 8
        /\ (HandData.gesture hd = OPEN_HAND ->
            Rabs (HandData.x hd - 5 / 10) < 5 / 100 ->
            Camera.autoAngle v' = Camera.autoAngle v))
    /\ (m <> SCATTER ->
        Rabs (Camera.vy position - Camera.vy lookAt
              - snd (Camera.currentOrbit v')) <= 5 / 10
        /\ Camera.autoAngle v' = Camera.autoAngle v).
Proof.
  intros Hid. unfold Camera.useFrame, Camera.smoothed. rewrite Hid.
  destruct (AppMode_beq_spec m SCATTER) as [->|Hm].
  - cbv zeta. eexists _, _. split; [reflexivity|].
    cbn -[Q2R Camera.clamp]. rewrite !Q2R_dec, ?Q2R_1.
    destruct portrait;
      (split; [field|]); (split; [field|]); (split; [field|]);
      (split; [|split; [intros _; split|intros Hne; congruence]]).
    all: try match goal with
      | |- _ = _ * _ * (_ * _) =>
          match goal with
          | |- context [sin ?a] =>
              pose proof (sin_cos_square a) as Ht;
              set (sn := sin a) in *; set (cs := cos a) in *
          end;
          match goal with
          | |- ?l = ?r => replace l with (r * (sn * sn + cs * cs)) by field
          end;
          rewrite Ht; ring
      end.
    all: try match goal with
      | |- _ <= _ <= _ =>
          match goal with
          | |- context [Camera.clamp ?a ?b ?c] =>
              pose proof (@clamp_range a b c ltac:(lra)) as Hc;
              set (h := Camera.clamp a b c) in *
          end; lra
      end.
    all: intros Hopen Hdead; rewrite Hopen; cbn [GestureType_beq];
      destruct (ltbR_spec (Rabs (HandData.x hd - 5 / 10)) (5 / 100));
        [field|contradiction].
  - cbv zeta. eexists _, _. split; [reflexivity|].
    cbn -[Q2R]. rewrite !Q2R_dec, ?Q2R_1.
    destruct portrait;
      (split; [field|]); (split; [field|]); (split; [field|]);
      (split; [|split; [intros Heq; congruence|intros _; split]]);
      try reflexivity.
    all: try match goal with
      | |- _ = _ * _ * (_ * _) =>
          match goal with
          | |- context [sin ?a] =>
              pose proof (sin_cos_square a) as Ht;
              set (sn := sin a) in *; set (cs := cos a) in *
          end;
          match goal with
          | |- ?l = ?r => replace l with (r * (sn * sn + cs * cs)) by field
          end;
          rewrite Ht; ring
      end.
    all: match goal with
      | |- context [sin ?a] => pose proof (SIN_bound a) as [Hlo Hhi];
                               set (sn := sin a) in *
      end; apply Rabs_le; lra.
Qed.

Lemma camera_on_circle_witness :
  truthy (@None String.string) = false
  /\ exists position lookAt,
       snd (Camera.useFrame None SCATTER (HandData.make OPEN_HAND (52 / 100) 1)
                            true 0 (1 / 60) Camera.initialView)
       = Some (position, lookAt)
       /\ (Camera.vx position - Camera.vx lookAt)
          * (Camera.vx position - Camera.vx lookAt)
          + (Camera.vz position - Camera.vz lookAt)
            * (Camera.vz position - Camera.vz lookAt)
          = 28 * 28.
Proof.
  split; [reflexivity|].
  destruct (@camera_on_circle None SCATTER
              (HandData.make OPEN_HAND (52 / 100) 1) true 0 (1 / 60)
              Camera.initialView eq_refl)
    as (position & lookAt & Hsnd & _ & _ & _ & Hcircle & _).
  exists position, lookAt. split; [exact Hsnd|].
  rewrite Hcircle. cbn -[Q2R]. rewrite !Q2R_1. field.
Defined.

Close Scope R_scope.
